(** * tools.py: evaluation metrics of a recommender engine

    A shallow embedding of [show_article], [read_config_data] and
    [get_metrics] of [tools.py], together with the fragment of Python,
    pandas, scikit-learn, PIL and [os.path] these functions rely on.

    Conventions of the embedding.
    - Python floats are exact rationals ([Qc], the canonical rationals, so
      that equal numbers are equal terms); rounding errors of binary floating
      point are outside the model.  A standard deviation is the square root of
      a rational and is kept symbolically ([Sqrt v]).
    - An exception is a value of [exn]; a computation that may raise returns
      a [result].
    - A pandas [DataFrame] is an ordered list of named columns, as in pandas'
      block layout; row operations ([merge], [sort_values]) compute an
      indexer and [take] every column along it, which is how pandas performs
      them.
    - Libraries outside the repository whose results are not rational
      (scikit-learn's cosine kernel) or that touch the file system (PIL, the
      files and the YAML parser) are parameters of the functions that call
      them. *)

From Stdlib Require Import String Ascii List ZArith QArith Qcanon Qround.
From Stdlib Require Import Lia Lqa Bool DecimalString Permutation Arith.
From Stdlib Require Import Sorted.
Import ListNotations.

Open Scope string_scope.
Open Scope list_scope.

(** ** The Python fragment *)

Module Py.

(** The exceptions the two functions can raise. *)
Inductive exn : Type :=
| KeyError (key : string)
| ZeroDivisionError
| ValueError
| TypeError
| FileNotFoundError (path : string).

Inductive result (A : Type) : Type :=
| Ok (a : A)
| Raise (e : exn).

Arguments Ok {A} a.
Arguments Raise {A} e.

Definition bind {A B : Type} (m : result A) (f : A -> result B) : result B :=
  match m with
  | Ok a => f a
  | Raise e => Raise e
  end.

(** [traverse f l] runs [f] on every element, left to right, and stops at the
    first exception. *)
Fixpoint traverse {A B : Type} (f : A -> result B) (l : list A)
  : result (list B) :=
  match l with
  | [] => Ok []
  | x :: t =>
      bind (f x) (fun y => bind (traverse f t) (fun ys => Ok (y :: ys)))
  end.

(** [s[:n]]: the first [n] characters, or all of [s] when it is shorter. *)
Fixpoint slice_to (n : nat) (s : string) : string :=
  match n, s with
  | S n', String c s' => String c (slice_to n' s')
  | _, _ => EmptyString
  end.

(** [str(k)] of an integer, as an f-string field renders it. *)
Definition str_of_int (k : Z) : string :=
  NilZero.string_of_int (Z.to_int k).

Definition Qc_of_Z (z : Z) : Qc := Q2Qc (inject_Z z).

Definition Qc_of_nat (n : nat) : Qc := Qc_of_Z (Z.of_nat n).

(** [a / b] on two Python integers. *)
Definition truediv (a b : Z) : result Qc :=
  if (b =? 0)%Z then Raise ZeroDivisionError
  else Ok (Qc_of_Z a / Qc_of_Z b)%Qc.

(** Rounding to the nearest integer, ties to the even one. *)
Definition round_half_even (x : Qc) : Z :=
  let f := Qfloor x in
  match ((x - Qc_of_Z f) ?= Q2Qc (1 # 2))%Qc with
  | Lt => f
  | Gt => (f + 1)%Z
  | Eq => if Z.even f then f else (f + 1)%Z
  end.

(** [round(x, ndigits)]. *)
Definition round (x : Qc) (ndigits : Z) : Qc :=
  if (0 <=? ndigits)%Z then
    let p := Qc_of_Z (10 ^ ndigits) in
    (Qc_of_Z (round_half_even (x * p)) / p)%Qc
  else
    let p := Qc_of_Z (10 ^ (- ndigits)) in
    (Qc_of_Z (round_half_even (x / p)) * p)%Qc.

(** [itertools.combinations(x, 2)]: the pairs [(x[i], x[j])], [i < j], in
    lexicographic order of the positions. *)
Fixpoint combinations2 {A : Type} (x : list A) : list (A * A) :=
  match x with
  | [] => []
  | a :: t => map (fun b => (a, b)) t ++ combinations2 t
  end.

End Py.

Export Py.

Notation "x <- m ;; k" := (bind m (fun x => k))
  (at level 61, m at next level, right associativity).

(** ** The pandas fragment *)

Module pd.

(** A cell of a column: a number, a string, or the missing value.  Integer
    and float columns are both numbers; a column is taken to hold cells of
    one kind besides [NaN]. *)
Inductive cell : Type :=
| Num (q : Qc)
| Str (s : string)
| NaN.

Definition cell_eqb (a b : cell) : bool :=
  match a, b with
  | Num x, Num y => Qeq_bool x y
  | Str s, Str t => String.eqb s t
  | NaN, NaN => true
  | _, _ => false
  end.

(** The order of the values of a column.  Numbers sort before strings only to
    make the order total: pandas refuses to compare them. *)
Definition cell_ltb (a b : cell) : bool :=
  match a, b with
  | Num x, Num y => match (x ?= y)%Qc with Lt => true | _ => false end
  | Str s, Str t => String.ltb s t
  | Num _, Str _ => true
  | _, _ => false
  end.

Definition cell_leb (a b : cell) : bool := negb (cell_ltb b a).

Definition notna (c : cell) : bool :=
  match c with NaN => false | _ => true end.

Definition isin (c : cell) (values : list cell) : bool :=
  existsb (cell_eqb c) values.

(** [Series.fillna(value)]. *)
Definition fillna (col : list cell) (value : cell) : list cell :=
  map (fun c => match c with NaN => value | _ => c end) col.

(** [Series.unique()]: the distinct values in order of first appearance,
    [NaN] included. *)
Fixpoint unique (col : list cell) : list cell :=
  match col with
  | [] => []
  | x :: t => x :: filter (fun y => negb (cell_eqb x y)) (unique t)
  end.

(** [Series.nunique()] and [Index.nunique()]: missing values are not
    counted. *)
Definition nunique (col : list cell) : Z :=
  Z.of_nat (length (unique (filter notna col))).

(** *** Numbers *)

(** A value of a float column: [None] is NaN. *)
Definition to_number (c : cell) : result (option Qc) :=
  match c with
  | Num q => Ok (Some q)
  | NaN => Ok None
  | Str _ => Raise TypeError
  end.

Definition of_number (x : option Qc) : cell :=
  match x with Some q => Num q | None => NaN end.

Definition numeric (col : list cell) : result (list (option Qc)) :=
  traverse to_number col.

(** A float of the summary row: a rational, the square root of a rational,
    or NaN. *)
Inductive float : Type :=
| Rat (q : Qc)
| Sqrt (v : Qc)
| FNaN.

Definition float_of (x : option Qc) : float :=
  match x with Some q => Rat q | None => FNaN end.

Definition valid_values (l : list (option Qc)) : list Qc :=
  flat_map (fun x => match x with Some q => [q] | None => [] end) l.

Definition total (l : list Qc) : Qc := fold_right Qcplus 0%Qc l.

(** [Series.sum()], [Series.mean()], [Series.var()] and [Series.std()], all
    with [skipna=True]; variance and deviation with [ddof=1]. *)
Definition sum (l : list (option Qc)) : option Qc :=
  Some (total (valid_values l)).

Definition mean (l : list (option Qc)) : option Qc :=
  match valid_values l with
  | [] => None
  | xs => Some (total xs / Qc_of_nat (length xs))%Qc
  end.

Definition var (l : list (option Qc)) : option Qc :=
  let xs := valid_values l in
  let n := length xs in
  if (n <=? 1)%nat then None
  else
    let m := (total xs / Qc_of_nat n)%Qc in
    Some (total (map (fun x => (x - m) * (x - m))%Qc xs)
          / Qc_of_nat (n - 1))%Qc.

Definition std (l : list (option Qc)) : float :=
  match var l with
  | Some v => Sqrt v
  | None => FNaN
  end.

(** Division of two floats of a column: NaN propagates and [0 / 0] is NaN.
    A non-zero numerator over zero is an infinity, which the model has no
    value for; it is rendered as NaN as well. *)
Definition number_div (a b : option Qc) : option Qc :=
  match a, b with
  | Some x, Some y => if Qeq_bool y 0 then None else Some (x / y)%Qc
  | _, _ => None
  end.

Definition number_mul (a b : option Qc) : option Qc :=
  match a, b with
  | Some x, Some y => Some (x * y)%Qc
  | _, _ => None
  end.

(** [a op b] on two columns of one frame (same index, so row by row). *)
Definition col_op (op : option Qc -> option Qc -> option Qc)
  (a b : list cell) : result (list cell) :=
  xs <- numeric a ;;
  ys <- numeric b ;;
  Ok (map (fun p => of_number (op (fst p) (snd p))) (combine xs ys)).

(** *** Frames *)

(** A frame: its columns in order, each with its name.  The row labels are
    the default positions and are left implicit. *)
Definition DataFrame : Type := list (string * list cell).

Definition columns (df : DataFrame) : list string := map fst df.

Definition nrows (df : DataFrame) : nat :=
  match df with
  | [] => 0
  | (_, col) :: _ => length col
  end.

Fixpoint getcol (c : string) (df : DataFrame) : option (list cell) :=
  match df with
  | [] => None
  | (n, col) :: t => if String.eqb n c then Some col else getcol c t
  end.

(** [df[c]]. *)
Definition getitem (df : DataFrame) (c : string) : result (list cell) :=
  match getcol c df with
  | Some col => Ok col
  | None => Raise (KeyError c)
  end.

(** [df[c] = col], for a [col] that has one value per row of [df]: an
    existing column is replaced in place, a new one is appended. *)
Fixpoint setitem (df : DataFrame) (c : string) (col : list cell)
  : DataFrame :=
  match df with
  | [] => [(c, col)]
  | (n, old) :: t =>
      if String.eqb n c then (n, col) :: t else (n, old) :: setitem t c col
  end.

(** [take]: the rows of a column at the given positions; a missing position
    ([None], pandas' [-1]) gives NaN. *)
Definition take (idx : list nat) (col : list cell) : list cell :=
  map (fun i => nth i col NaN) idx.

Definition take_opt (idx : list (option nat)) (col : list cell)
  : list cell :=
  map (fun o => match o with Some j => nth j col NaN | None => NaN end) idx.

(** The key of row [i]: its cells in the key columns. *)
Definition key_at (keys : list (list cell)) (i : nat) : list cell :=
  map (fun col => nth i col NaN) keys.

Fixpoint keys_eqb (a b : list cell) : bool :=
  match a, b with
  | [], [] => true
  | x :: a', y :: b' => cell_eqb x y && keys_eqb a' b'
  | _, _ => false
  end.

Inductive how : Type := Left | Inner.

(** The indexer of a join: for every left row in order, its matching right
    rows in order; with [Left], a left row without a match is kept with no
    right row. *)
Definition join_indexer (h : how) (lk rk : list (list cell)) (n m : nat)
  : list (nat * option nat) :=
  flat_map
    (fun i =>
       match filter (fun j => keys_eqb (key_at lk i) (key_at rk j))
                    (seq 0 m) with
       | [] => match h with Left => [(i, None)] | Inner => [] end
       | js => map (fun j => (i, Some j)) js
       end)
    (seq 0 n).

Definition mem (c : string) (l : list string) : bool :=
  existsb (String.eqb c) l.

(** The key columns of both sides, key by key. *)
Fixpoint merge_keys (left right : DataFrame) (on : list string)
  : result (list (list cell) * list (list cell)) :=
  match on with
  | [] => Ok ([], [])
  | c :: t =>
      rk <- getitem right c ;;
      lk <- getitem left c ;;
      ks <- merge_keys left right t ;;
      Ok (lk :: fst ks, rk :: snd ks)
  end.

(** [pd.merge(left, right, how, on)]: the left columns, then the right
    columns that are not keys; a name present on both sides that is not a key
    gets the suffixes [_x] and [_y]. *)
Definition merge (left right : DataFrame) (h : how) (on : list string)
  : result DataFrame :=
  ks <- merge_keys left right on ;;
  let idx := join_indexer h (fst ks) (snd ks) (nrows left) (nrows right) in
  let rest := filter (fun p => negb (mem (fst p) on)) right in
  let lcols :=
    map (fun p =>
           (if negb (mem (fst p) on) && mem (fst p) (columns rest)
            then String.append (fst p) "_x" else fst p,
            take (map fst idx) (snd p))) left in
  let rcols :=
    map (fun p =>
           (if mem (fst p) (columns left) then String.append (fst p) "_y"
            else fst p,
            take_opt (map snd idx) (snd p))) rest in
  Ok (lcols ++ rcols).

(** *** Sorting *)

Fixpoint insert {A : Type} (le : A -> A -> bool) (x : A) (l : list A)
  : list A :=
  match l with
  | [] => [x]
  | y :: t => if le x y then x :: y :: t else y :: insert le x t
  end.

(** A stable sort: of two elements that compare equal, the one that comes
    first in the input comes first in the output. *)
Definition isort {A : Type} (le : A -> A -> bool) (l : list A) : list A :=
  fold_right (insert le) [] l.

(** The order of one sort key: [Lt] when [a] goes before [b].  Missing
    values go last in both directions ([na_position="last"]). *)
Definition key_cmp (ascending : bool) (a b : cell) : comparison :=
  match a, b with
  | NaN, NaN => Eq
  | NaN, _ => Gt
  | _, NaN => Lt
  | _, _ =>
      let (lo, hi) := if ascending then (a, b) else (b, a) in
      if cell_ltb lo hi then Lt else if cell_ltb hi lo then Gt else Eq
  end.

Fixpoint lex_cmp (ascending : list bool) (ka kb : list cell) : comparison :=
  match ascending, ka, kb with
  | asc :: ascending', a :: ka', b :: kb' =>
      match key_cmp asc a b with
      | Eq => lex_cmp ascending' ka' kb'
      | c => c
      end
  | _, _, _ => Eq
  end.

Definition lex_leb (ascending : list bool) (ka kb : list cell) : bool :=
  match lex_cmp ascending ka kb with Gt => false | _ => true end.

(** [df.sort_values(by, ascending)] with several keys: a stable
    lexicographic sort. *)
Definition sort_values (df : DataFrame) (by_ : list string)
  (ascending : list bool) : result DataFrame :=
  keys <- traverse (getitem df) by_ ;;
  let idx :=
    isort (fun i j => lex_leb ascending (key_at keys i) (key_at keys j))
          (seq 0 (nrows df)) in
  Ok (map (fun p => (fst p, take idx (snd p))) df).

(** *** Grouping *)

(** The groups of a [groupby]: the distinct keys that are not missing, in
    increasing order. *)
Definition group_keys (keys : list cell) : list cell :=
  isort cell_leb (unique (filter notna keys)).

(** The values of the rows whose key is [k], in row order. *)
Definition group_values {A : Type} (k : cell) (keys : list cell)
  (vals : list A) : list A :=
  map snd (filter (fun kv => cell_eqb (fst kv) k) (combine keys vals)).

Definition groupby {A : Type} (keys : list cell) (vals : list A)
  : list (cell * list A) :=
  map (fun k => (k, group_values k keys vals)) (group_keys keys).

(** [df.groupby(by)[col]]: the key of every row, and the groups. *)
Record GroupBy : Type := {
  gb_keys : list cell;
  gb_groups : list (cell * list cell)
}.

Definition groupby_col (df : DataFrame) (by_ col : string)
  : result GroupBy :=
  keys <- getitem df by_ ;;
  vals <- getitem df col ;;
  Ok {| gb_keys := keys; gb_groups := groupby keys vals |}.

(** A series of floats labelled by group. *)
Definition Series : Type := list (cell * option Qc).

(** [.mean()], [.sum()] of a [groupby]: one number per group. *)
Definition agg (f : list (option Qc) -> option Qc) (g : GroupBy)
  : result Series :=
  traverse (fun kv => xs <- numeric (snd kv) ;; Ok (fst kv, f xs))
           (gb_groups g).

Fixpoint pop (k : cell) (gs : list (cell * list cell))
  : option (cell * list (cell * list cell)) :=
  match gs with
  | [] => None
  | (k', vs) :: t =>
      if cell_eqb k' k then
        match vs with
        | [] => None
        | v :: vs' => Some (v, (k', vs') :: t)
        end
      else
        match pop k t with
        | Some (v, t') => Some (v, (k', vs) :: t')
        | None => None
        end
  end.

(** The results of the groups put back on the rows they came from; a row
    whose key is missing belongs to no group and gets NaN. *)
Fixpoint scatter (keys : list cell) (gs : list (cell * list cell))
  : list cell :=
  match keys with
  | [] => []
  | k :: ks =>
      match pop k gs with
      | Some (v, gs') => v :: scatter ks gs'
      | None => NaN :: scatter ks gs
      end
  end.

(** [.transform(f)]: [f] maps the values of a group to as many results,
    which take the place of the values. *)
Definition transform (f : list cell -> result (list cell)) (g : GroupBy)
  : result (list cell) :=
  gs <- traverse (fun kv => r <- f (snd kv) ;; Ok (fst kv, r))
                 (gb_groups g) ;;
  Ok (scatter (gb_keys g) gs).

(** [x.expanding(min_periods).sum()]: at each row the sum of the values seen
    so far that are not missing, or NaN as long as fewer than [min_periods]
    of them were seen. *)
Fixpoint expanding_sum_from (min_periods : nat) (acc : Qc) (nobs : nat)
  (l : list (option Qc)) : list (option Qc) :=
  match l with
  | [] => []
  | x :: t =>
      let acc' := match x with Some q => (acc + q)%Qc | None => acc end in
      let nobs' := match x with Some _ => S nobs | None => nobs end in
      (if (min_periods <=? nobs')%nat then Some acc' else None)
        :: expanding_sum_from min_periods acc' nobs' t
  end.

Definition expanding_sum (min_periods : nat) (x : list cell)
  : result (list cell) :=
  xs <- numeric x ;;
  Ok (map of_number (expanding_sum_from min_periods 0%Qc 0 xs)).

(** [x.expanding(min_periods).count()], for a column of any kind: the
    number of values seen so far that are not missing; every row is an
    observation for [min_periods]. *)
Fixpoint expanding_count_from (min_periods : nat) (cnt : nat) (nobs : nat)
  (l : list cell) : list cell :=
  match l with
  | [] => []
  | x :: t =>
      let cnt' := if notna x then S cnt else cnt in
      (if (min_periods <=? S nobs)%nat then Num (Qc_of_nat cnt') else NaN)
        :: expanding_count_from min_periods cnt' (S nobs) t
  end.

Definition expanding_count (min_periods : nat) (x : list cell)
  : result (list cell) :=
  Ok (expanding_count_from min_periods 0 0 x).

(** *** Frames of floats *)

(** A frame whose columns are all floats, with its row labels: the items
    table, one feature vector per article. *)
Record FeatureFrame : Type := {
  ff_index : list cell;
  ff_values : list (list Qc)
}.

(** [df[mask]] for a boolean mask over the rows. *)
Definition loc_mask (df : FeatureFrame) (mask : list bool) : FeatureFrame :=
  let kept := filter (fun p => snd p)
                     (combine (combine (ff_index df) (ff_values df)) mask) in
  {| ff_index := map (fun p => fst (fst p)) kept;
     ff_values := map (fun p => snd (fst p)) kept |}.

(** A square table of floats with labelled rows and columns. *)
Record Matrix : Type := {
  m_index : list cell;
  m_columns : list cell;
  m_data : list (list Qc)
}.

(** [pd.DataFrame(data=array, columns=..., index=...)]: the labels are put
    on the array by position; the shapes have to agree. *)
Definition DataFrame_of_array (data : list (list Qc))
  (columns_ index_ : list cell) : result Matrix :=
  if (length data =? length index_)%nat
     && forallb (fun r => (length r =? length columns_)%nat) data
  then Ok {| m_index := index_; m_columns := columns_; m_data := data |}
  else Raise ValueError.

(** [m.unstack().reset_index()]: one row per (column label, row label), the
    columns outermost, with the value at that place. *)
Definition unstack_reset_index (m : Matrix) : DataFrame :=
  let places :=
    flat_map (fun j => map (fun i => (j, i)) (seq 0 (length (m_index m))))
             (seq 0 (length (m_columns m))) in
  [ ("level_0", map (fun p => nth (fst p) (m_columns m) NaN) places);
    ("level_1", map (fun p => nth (snd p) (m_index m) NaN) places);
    ("0", map (fun p => Num (nth (fst p) (nth (snd p) (m_data m) []) 0%Qc))
              places) ].

(** [df.columns = names]. *)
Definition set_columns (df : DataFrame) (names : list string)
  : result DataFrame :=
  if (length names =? length df)%nat
  then Ok (map (fun p => (fst p, snd (snd p))) (combine names df))
  else Raise ValueError.

(** [Series.explode()] of a column of lists, each row with its label: one
    row per element, and one row holding NaN ([None]) for an empty list. *)
Definition explode {A : Type} (col : list (cell * list A))
  : list (cell * option A) :=
  flat_map (fun g => match snd g with
                     | [] => [(fst g, None)]
                     | xs => map (fun x => (fst g, Some x)) xs
                     end) col.

End pd.

Export pd.

(** ** scikit-learn *)

Module sklearn.

Section Kernel.

(** The cosine of the angle of two vectors, [u.v / (|u| |v|)], is not a
    rational function of them: it is a parameter. *)
Variable cos : list Qc -> list Qc -> Qc.

(** [cosine_similarity(X)]: the kernel on every pair of rows of [X], which
    must have a row and a column. *)
Definition cosine_similarity (X : list (list Qc))
  : result (list (list Qc)) :=
  match X with
  | [] => Raise ValueError
  | x0 :: _ =>
      if (length x0 =? 0)%nat then Raise ValueError
      else Ok (map (fun u => map (fun v => cos u v) X) X)
  end.

End Kernel.

End sklearn.

(** ** PIL *)

Module PIL.

(** The image library and the files it reads: [open] is the state of the
    file system, [resize] gives an image of the requested size. *)
Class Imaging : Type := {
  Image : Type;
  open : string -> result Image;
  resize : Image -> Z * Z -> result Image;
  size : Image -> Z * Z;
  resize_size :
    forall im s im', resize im s = Ok im' -> size im' = s
}.

End PIL.

(** ** os.path *)

Module os_path.

(** The separator of [posixpath], the flavour of [os.path] the paths of
    [tools.py] are written for. *)
Definition sep : ascii := "/"%char.

(** [p[:p.rfind(sep) + 1]]: the characters up to the last separator, which
    is included; nothing when [p] has no separator. *)
Fixpoint head_of (p : string) : string :=
  match p with
  | EmptyString => EmptyString
  | String c s =>
      match head_of s with
      | EmptyString =>
          if Ascii.eqb c sep then String c EmptyString else EmptyString
      | h => String c h
      end
  end.

(** [s == sep * len(s)]. *)
Fixpoint all_sep (s : string) : bool :=
  match s with
  | EmptyString => true
  | String c s' => Ascii.eqb c sep && all_sep s'
  end.

(** [s.rstrip(sep)]. *)
Fixpoint rstrip (s : string) : string :=
  match s with
  | EmptyString => EmptyString
  | String c s' =>
      match rstrip s' with
      | EmptyString =>
          if Ascii.eqb c sep then EmptyString else String c EmptyString
      | r => String c r
      end
  end.

(** [dirname(p)]: the head of [p], without its trailing separators unless
    it is made of separators only. *)
Definition dirname (p : string) : string :=
  let head := head_of p in
  if negb (String.eqb head EmptyString) && negb (all_sep head)
  then rstrip head
  else head.

End os_path.

(** ** The host of the module *)

Module host.

(** What [read_config_data] finds around it: the path of the module, the
    file system ([realpath], [open] and [read] of a text file) and the
    parser of [yaml]. *)
Class Host : Type := {
  __file__ : string;
  realpath : string -> string;
  TextIO : Type;
  open : string -> result TextIO;
  read : TextIO -> result string;
  Dict : Type;
  safe_load : string -> result Dict
}.

End host.

(** ** tools.py *)

Module tools.

Import sklearn PIL.

Definition _IMAGES_PATH : string := "./recursos/datos/images".

Definition show_article_default_size : Z * Z := (200, 200)%Z.

(** [show_article(article_id, size=(200, 200))]; [size = None] stands for a
    call that leaves the parameter out. *)
Definition show_article `{Imaging} (article_id : string)
  (size_ : option (Z * Z)) : result Image :=
  let size_ := match size_ with
               | Some s => s
               | None => show_article_default_size
               end in
  let three_digits_code := slice_to 3 article_id in
  im <- open (String.concat EmptyString
                [_IMAGES_PATH; "/"; three_digits_code; "/"; article_id;
                 ".jpg"]) ;;
  im <- resize im size_ ;;
  Ok im.

(** [read_config_data()], lines 28-41.  The [with] block closes the file
    when it is left, which the result does not show. *)
Definition read_config_data `{host.Host} : result host.Dict :=
  let base_path := os_path.dirname (host.realpath host.__file__) in
  let config_file_path :=
    String.concat EmptyString [base_path; "/configuration.yml"] in
  conf_file <- host.open config_file_path ;;
  configuration <- host.read conf_file ;;
  host.safe_load configuration.

(** The dictionary [summary], in the layout [orient="tight"] of
    [DataFrame.from_dict], which stands for the one-row frame returned. *)
Record Summary : Type := {
  index : list string;
  columns : list (string * string);
  data : list (list float);
  index_names : list string;
  column_names : list string
}.

(** [summary["columns"].append(c)]. *)
Definition append_column (s : Summary) (c : string * string) : Summary :=
  {| index := index s; columns := columns s ++ [c]; data := data s;
     index_names := index_names s; column_names := column_names s |}.

(** [summary["data"][0].extend(vals)]. *)
Definition extend_data (s : Summary) (vals : list float) : Summary :=
  {| index := index s; columns := columns s;
     data := match data s with
             | [] => []
             | row :: rest => (row ++ vals) :: rest
             end;
     index_names := index_names s; column_names := column_names s |}.

(** The f-string [f"{metric}@{k}"]. *)
Definition at_k (metric : string) (k : Z) : string :=
  String.concat EmptyString [metric; "@"; str_of_int k].

Definition values (s : Series) : list (option Qc) := map snd s.

(** [zip] applied to the unpacked column [combs]: every argument has to
    be iterable, and a NaN is not. *)
Definition zip_star (combs : list (option (cell * cell)))
  : result (list (list cell)) :=
  pairs <- traverse (fun c => match c with
                              | Some p => Ok p
                              | None => Raise TypeError
                              end) combs ;;
  match pairs with
  | [] => Ok []
  | _ => Ok [map fst pairs; map snd pairs]
  end.

(** [a, b = it]: exactly two values to unpack. *)
Definition unpack2 {A : Type} (it : list A) : result (A * A) :=
  match it with
  | [a; b] => Ok (a, b)
  | _ => Raise ValueError
  end.

(** The defaults of the parameters [k] and [customer_id] of
    [get_metrics]. *)
Definition default_k : Z := 5.

Definition default_customer_id : string := "cid".

Section Metrics.

(** The kernel of [sklearn.metrics.pairwise.cosine_similarity]. *)
Variable cos : list Qc -> list Qc -> Qc.

(** Lines 72-77: the left join of the recommendations with the labels. *)
Definition merged (recommendations true_labels : DataFrame)
  (customer_id : string) : result DataFrame :=
  merge recommendations true_labels Left [customer_id; "article_id"].

(** Line 79. *)
Definition cat_cov (recommendations : DataFrame) (articles_df : FeatureFrame)
  : result Qc :=
  aid <- getitem recommendations "article_id" ;;
  truediv (nunique aid) (nunique (ff_index articles_df)).

(** Line 84. *)
Definition fill_interested (recs : DataFrame) : result DataFrame :=
  interested <- getitem recs "interested" ;;
  Ok (setitem recs "interested" (fillna interested (Num 0%Qc))).

(** Line 85. *)
Definition prec_xcid (recs : DataFrame) (customer_id : string)
  : result Series :=
  g <- groupby_col recs customer_id "interested" ;;
  agg mean g.

(** Line 93. *)
Definition rec_xcid (recs : DataFrame) (customer_id : string)
  : result Series :=
  g <- groupby_col recs customer_id "interested" ;;
  s <- agg sum g ;;
  Ok (map (fun p => (fst p, number_div (snd p) (Some (Qc_of_Z 10)))) s).

(** Lines 101-111: [recs] sorted, with the columns of the running
    precision. *)
Definition intra_map (recs : DataFrame) (sort_column customer_id : string)
  : result DataFrame :=
  recs <- sort_values recs [customer_id; sort_column] [false; false] ;;
  g <- groupby_col recs customer_id "interested" ;;
  s <- transform (expanding_sum 1) g ;;
  let recs := setitem recs "expanding_rolling_sum" s in
  g <- groupby_col recs customer_id "article_id" ;;
  c <- transform (expanding_count 1) g ;;
  let recs := setitem recs "expanding_rolling_count" c in
  s <- getitem recs "expanding_rolling_sum" ;;
  c <- getitem recs "expanding_rolling_count" ;;
  q <- col_op number_div s c ;;
  let recs := setitem recs "intra_map@k" q in
  q <- getitem recs "intra_map@k" ;;
  i <- getitem recs "interested" ;;
  q <- col_op number_mul q i ;;
  Ok (setitem recs "intra_map@k" q).

(** Line 112. *)
Definition map_xcid (recs : DataFrame) (customer_id : string)
  : result Series :=
  g <- groupby_col recs customer_id "intra_map@k" ;;
  agg mean g.

(** Lines 122-131: the table of the similarities, one row per pair of
    labels. *)
Definition sims_df (recs : DataFrame) (articles_df : FeatureFrame)
  : result DataFrame :=
  aid <- getitem recs "article_id" ;;
  let X := loc_mask articles_df
             (map (fun i => isin i (unique aid)) (ff_index articles_df)) in
  prods_sim <- cosine_similarity cos (ff_values X) ;;
  sims_mat <- DataFrame_of_array prods_sim (unique aid) (unique aid) ;;
  set_columns (unstack_reset_index sims_mat) ["aid_01"; "aid_02"; "score"].

(** Lines 133-138: one row per customer and pair of recommended articles.
    The columns [article_id] and [combs] hold lists and tuples at this
    point; they are not read again and stay out of the frame, so
    [customer_id] is taken to differ from these two names. *)
Definition pairs_frame (recs : DataFrame) (customer_id : string)
  : result DataFrame :=
  g <- groupby_col recs customer_id "article_id" ;;
  let combs := map (fun kv => (fst kv, combinations2 (snd kv)))
                   (gb_groups g) in
  let exploded := explode combs in
  z <- zip_star (map snd exploded) ;;
  ab <- unpack2 z ;;
  let recs := [(customer_id, map fst exploded)] in
  let recs := setitem recs "aid_01" (fst ab) in
  Ok (setitem recs "aid_02" (snd ab)).

(** Lines 139-142. *)
Definition diversity_x_cid (recs sims : DataFrame) (customer_id : string)
  : result Series :=
  recs_diversity <- merge recs sims Inner ["aid_01"; "aid_02"] ;;
  g <- groupby_col recs_diversity customer_id "score" ;;
  m <- agg mean g ;;
  Ok (map (fun p => (fst p,
                     match snd p with
                     | Some x => Some (1 - x)%Qc
                     | None => None
                     end)) m).

(** [get_metrics(name, recommendations, true_labels, articles_df,
    sort_column, k=5, customer_id="cid")], lines 44-148.  The blocks above
    are its steps in the order of the source; the dictionary [summary] is
    threaded through them. *)
Definition get_metrics (name : string)
  (recommendations true_labels : DataFrame) (articles_df : FeatureFrame)
  (sort_column : string) (k : Z) (customer_id : string) : result Summary :=
  let summary :=
    {| index := [name]; columns := []; data := [[]];
       index_names := [EmptyString];
       column_names := [EmptyString; EmptyString] |} in
  recs <- merged recommendations true_labels customer_id ;;
  (* Catalog coverage *)
  cat_cov <- cat_cov recommendations articles_df ;;
  let summary := append_column summary ("General", "Catalog coverage (%)") in
  let summary :=
    extend_data summary [Rat (round (Qc_of_Z 100 * cat_cov)%Qc 4)] in
  (* Precision@K *)
  recs <- fill_interested recs ;;
  prec_xcid <- prec_xcid recs customer_id ;;
  let mean_precision_at_k := mean (values prec_xcid) in
  let std_precision_at_k := std (values prec_xcid) in
  let summary := append_column summary (at_k "Precision" k, "mean") in
  let summary := append_column summary (at_k "Precision" k, "std") in
  let summary :=
    extend_data summary
      [float_of mean_precision_at_k; std_precision_at_k] in
  (* Recall@K *)
  rec_xcid <- rec_xcid recs customer_id ;;
  let mean_recall_at_k := mean (values rec_xcid) in
  let std_recall_at_k := std (values rec_xcid) in
  let summary := append_column summary (at_k "Recall" k, "mean") in
  let summary := append_column summary (at_k "Recall" k, "std") in
  let summary :=
    extend_data summary [float_of mean_recall_at_k; std_recall_at_k] in
  (* MAP@K *)
  recs <- intra_map recs sort_column customer_id ;;
  map_xcid <- map_xcid recs customer_id ;;
  let mean_map_at_k := mean (values map_xcid) in
  let std_map_at_k := std (values map_xcid) in
  let summary := append_column summary (at_k "MAP" k, "mean") in
  let summary := append_column summary (at_k "MAP" k, "std") in
  let summary :=
    extend_data summary [float_of mean_map_at_k; std_map_at_k] in
  (* Diversity *)
  sims_df <- sims_df recs articles_df ;;
  recs <- pairs_frame recs customer_id ;;
  diversity_x_cid <- diversity_x_cid recs sims_df customer_id ;;
  let mean_diversity := mean (values diversity_x_cid) in
  let std_diversity := std (values diversity_x_cid) in
  let summary := append_column summary ("Diversity", "mean") in
  let summary := append_column summary ("Diversity", "std") in
  let summary :=
    extend_data summary [float_of mean_diversity; std_diversity] in
  Ok summary.

End Metrics.

(** The per-customer series [prec_xcid], [rec_xcid] and [map_xcid] of a
    call, as functions of its arguments: the steps of [get_metrics] up to
    lines 85, 93 and 112. *)
Definition precision_series (recommendations true_labels : DataFrame)
  (customer_id : string) : result Series :=
  recs <- merged recommendations true_labels customer_id ;;
  recs <- fill_interested recs ;;
  prec_xcid recs customer_id.

Definition recall_series (recommendations true_labels : DataFrame)
  (customer_id : string) : result Series :=
  recs <- merged recommendations true_labels customer_id ;;
  recs <- fill_interested recs ;;
  rec_xcid recs customer_id.

Definition map_series (recommendations true_labels : DataFrame)
  (sort_column customer_id : string) : result Series :=
  recs <- merged recommendations true_labels customer_id ;;
  recs <- fill_interested recs ;;
  recs <- intra_map recs sort_column customer_id ;;
  map_xcid recs customer_id.

End tools.

Export tools.

(** ** The tables of the specification *)

Module Spec.

(** A recommendation record: customer, article and the rank or score the
    recommendations are sorted by. *)
Record Recommendation : Type := {
  r_cid : cell;
  r_aid : cell;
  r_sort : cell
}.

(** A consumption record, with the label column [interested] that
    [get_metrics] reads. *)
Record TrueLabel : Type := {
  t_cid : cell;
  t_aid : cell;
  t_interested : option Qc
}.

Definition recommendations_frame (customer_id sort_column : string)
  (R : list Recommendation) : DataFrame :=
  [ (customer_id, map r_cid R);
    ("article_id", map r_aid R);
    (sort_column, map r_sort R) ].

Definition true_labels_frame (customer_id : string) (T : list TrueLabel)
  : DataFrame :=
  [ (customer_id, map t_cid T);
    ("article_id", map t_aid T);
    ("interested", map (fun t => of_number (t_interested t)) T) ].

(** The names [get_metrics] gives to the columns it adds, and the name of
    the article column. *)
Definition own_names : list string :=
  [ "article_id"; "interested"; "expanding_rolling_sum";
    "expanding_rolling_count"; "intra_map@k"; "aid_01"; "aid_02"; "score";
    "combs" ].

(** The customer column and the sort column are two columns of their own. *)
Definition valid_names (customer_id sort_column : string) : bool :=
  negb (String.eqb customer_id sort_column)
  && negb (mem customer_id own_names)
  && negb (mem sort_column own_names).

(** The left join on (customer_id, article_id): every recommendation with
    each of the labels of its pair, or alone when the pair has none. *)
Definition matches (r : Recommendation) (t : TrueLabel) : bool :=
  cell_eqb (r_cid r) (t_cid t) && cell_eqb (r_aid r) (t_aid t).

Definition left_join (R : list Recommendation) (T : list TrueLabel)
  : list (Recommendation * option TrueLabel) :=
  flat_map (fun r => match filter (matches r) T with
                     | [] => [(r, None)]
                     | ms => map (fun t => (r, Some t)) ms
                     end) R.

(** The label of a joined row: 0 when it is unmatched (or the label is
    missing). *)
Definition label (j : Recommendation * option TrueLabel) : Qc :=
  match snd j with
  | Some {| t_interested := Some q |} => q
  | _ => 0%Qc
  end.

Definition labelled (R : list Recommendation) (T : list TrueLabel)
  : list (Recommendation * Qc) :=
  map (fun j => (fst j, label j)) (left_join R T).

(** The customers of a table of rows: the customer ids that are not
    missing, each once. *)
Definition customers (L : list (Recommendation * Qc)) : list cell :=
  group_keys (map (fun j => r_cid (fst j)) L).

(** The labels of the rows of customer [c], in row order. *)
Definition labels_of (c : cell) (L : list (Recommendation * Qc))
  : list Qc :=
  map snd (filter (fun j => cell_eqb (r_cid (fst j)) c) L).

Definition average (l : list Qc) : option Qc :=
  match l with
  | [] => None
  | _ => Some (total l / Qc_of_nat (length l))%Qc
  end.

(** Precision@k per customer: the mean of the labels. *)
Definition precision_xcid (R : list Recommendation) (T : list TrueLabel)
  : Series :=
  let L := labelled R T in
  map (fun c => (c, average (labels_of c L))) (customers L).

(** Recall@k per customer: the sum of the labels over the constant 10. *)
Definition recall_xcid (R : list Recommendation) (T : list TrueLabel)
  : Series :=
  let L := labelled R T in
  map (fun c => (c, Some (total (labels_of c L) / Qc_of_Z 10)%Qc))
      (customers L).

(** The joined rows sorted by (customer_id descending, sort_column
    descending), rows that tie staying in their order. *)
Definition goes_before (a b : Recommendation * Qc) : bool :=
  lex_leb [false; false]
          [r_cid (fst a); r_sort (fst a)] [r_cid (fst b); r_sort (fst b)].

Definition ranked (R : list Recommendation) (T : list TrueLabel)
  : list (Recommendation * Qc) :=
  isort goes_before (labelled R T).

(** The running precision at position [p] (from 0) of a customer's labels:
    the sum of the labels up to [p] over the number of rows up to [p]. *)
Definition running_precision (l : list Qc) (p : nat) : Qc :=
  (total (firstn (S p) l) / Qc_of_nat (S p))%Qc.

(** The average over the positions of the running precision times the
    label. *)
Definition average_precision (l : list Qc) : option Qc :=
  average (map (fun p => (running_precision l p * nth p l 0)%Qc)
               (seq 0 (length l))).

Definition ap_xcid (R : list Recommendation) (T : list TrueLabel)
  : Series :=
  let L := ranked R T in
  map (fun c => (c, average_precision (labels_of c L))) (customers L).

(** The feature vector of an article in the items table. *)
Definition features (items : FeatureFrame) (a : cell)
  : option (list Qc) :=
  option_map snd (find (fun p => cell_eqb (fst p) a)
                       (combine (ff_index items) (ff_values items))).

(** One minus the similarity of the feature vectors of a pair. *)
Definition pair_distance (cos : list Qc -> list Qc -> Qc)
  (items : FeatureFrame) (p : cell * cell) : option Qc :=
  match features items (fst p), features items (snd p) with
  | Some u, Some v => Some (1 - cos u v)%Qc
  | _, _ => None
  end.

(** Diversity of a customer: the mean of [pair_distance] over the unordered
    pairs of the recommended articles; NaN when there is no pair. *)
Definition diversity (cos : list Qc -> list Qc -> Qc)
  (items : FeatureFrame) (aids : list cell) : option Qc :=
  mean (map (pair_distance cos items) (combinations2 aids)).

(** The number of distinct values of a column, missing values apart. *)
Definition distinct (l : list cell) : nat :=
  length (unique (filter notna l)).

End Spec.

Export Spec.

Open Scope nat_scope.

(** ** The frames and columns of a call on the tables of the specification *)

(** The rows read at a position outside a table: all cells missing. *)
Definition no_recommendation : Recommendation :=
  {| r_cid := NaN; r_aid := NaN; r_sort := NaN |}.

Definition no_label : TrueLabel :=
  {| t_cid := NaN; t_aid := NaN; t_interested := None |}.

(** The frame of the joined rows: the three columns of the recommendations
    and the label column. *)
Definition joined_frame (customer_id sort_column : string)
  (J : list (Recommendation * option TrueLabel)) : DataFrame :=
  [ (customer_id, map (fun j => r_cid (fst j)) J);
    ("article_id", map (fun j => r_aid (fst j)) J);
    (sort_column, map (fun j => r_sort (fst j)) J);
    ("interested",
     map (fun j => match snd j with
                   | Some t => of_number (t_interested t)
                   | None => NaN
                   end) J) ].

(** The frame of the joined rows once the missing labels are filled. *)
Definition labelled_frame (customer_id sort_column : string)
  (L : list (Recommendation * Qc)) : DataFrame :=
  [ (customer_id, map (fun j => r_cid (fst j)) L);
    ("article_id", map (fun j => r_aid (fst j)) L);
    (sort_column, map (fun j => r_sort (fst j)) L);
    ("interested", map (fun j => Num (snd j)) L) ].

(** The float of a numeric cell. *)
Definition number_of (c : cell) : option Qc :=
  match c with
  | Num q => Some q
  | _ => None
  end.

(** The cells a float column can hold. *)
Definition is_numeric (c : cell) : bool :=
  match c with
  | Str _ => false
  | _ => true
  end.

(** The joined row read at a position outside the table. *)
Definition no_row : Recommendation * Qc := (no_recommendation, 0%Qc).

(** The number of rows whose key is [c]. *)
Definition occurrences (c : cell) (keys : list cell) : nat :=
  length (filter (fun k => cell_eqb k c) keys).

(** The results of the two [transform]s on one group: the running sum of
    its labels and the running count of its article ids. *)
Definition running_sums (l : list Qc) : list cell :=
  map of_number (expanding_sum_from 1 0%Qc 0 (map Some l)).

Definition running_counts (aids : list cell) : list cell :=
  expanding_count_from 1 0 0 aids.

(** The article ids of the rows of customer [c], in row order. *)
Definition aids_of (c : cell) (L : list (Recommendation * Qc))
  : list cell :=
  map (fun j => r_aid (fst j))
      (filter (fun j => cell_eqb (r_cid (fst j)) c) L).

(** An operation on two cells of float columns. *)
Definition cell_op (op : option Qc -> option Qc -> option Qc)
  (a b : cell) : cell :=
  of_number (op (number_of a) (number_of b)).

(** The customer column of the joined rows. *)
Definition keys_of (L : list (Recommendation * Qc)) : list cell :=
  map (fun j => r_cid (fst j)) L.

(** The columns lines 102-111 add to the sorted rows [L]: the running sum
    of the labels, the running count of the rows, their ratio, and the
    ratio times the label. *)
Definition sum_column (L : list (Recommendation * Qc)) : list cell :=
  scatter (keys_of L)
          (map (fun k => (k, running_sums (labels_of k L))) (customers L)).

Definition count_column (L : list (Recommendation * Qc)) : list cell :=
  scatter (keys_of L)
          (map (fun k => (k, running_counts (aids_of k L))) (customers L)).

Definition ratio_column (L : list (Recommendation * Qc)) : list cell :=
  map (fun p => cell_op number_div (fst p) (snd p))
      (combine (sum_column L) (count_column L)).

Definition intra_column (L : list (Recommendation * Qc)) : list cell :=
  map (fun p => cell_op number_mul (fst p) (snd p))
      (combine (ratio_column L) (map (fun j => Num (snd j)) L)).

(** The frame [recs] after line 111. *)
Definition intra_frame (customer_id sort_column : string)
  (L : list (Recommendation * Qc)) : DataFrame :=
  labelled_frame customer_id sort_column L
  ++ [ ("expanding_rolling_sum", sum_column L);
       ("expanding_rolling_count", count_column L);
       ("intra_map@k", intra_column L) ].

(** The labels and the floats of the summary, from the coverage and the
    four per-customer series. *)
Definition summary_columns (k : Z) : list (string * string) :=
  [ ("General", "Catalog coverage (%)");
    (at_k "Precision" k, "mean"); (at_k "Precision" k, "std");
    (at_k "Recall" k, "mean"); (at_k "Recall" k, "std");
    (at_k "MAP" k, "mean"); (at_k "MAP" k, "std");
    ("Diversity", "mean"); ("Diversity", "std") ].

Definition summary_row (cov : Qc) (P Rc M D : Series) : list float :=
  [ Rat (round (Qc_of_Z 100 * cov)%Qc 4);
    float_of (mean (values P)); std (values P);
    float_of (mean (values Rc)); std (values Rc);
    float_of (mean (values M)); std (values M);
    float_of (mean (values D)); std (values D) ].

(** The steps of a call that returns. *)
Inductive run (cos : list Qc -> list Qc -> Qc)
  (recommendations true_labels : DataFrame) (articles_df : FeatureFrame)
  (sort_column customer_id : string) (cov : Qc) (P Rc M D : Series)
  : Prop :=
| run_steps (recs filled sorted sims pairs : DataFrame) :
    merged recommendations true_labels customer_id = Ok recs ->
    cat_cov recommendations articles_df = Ok cov ->
    fill_interested recs = Ok filled ->
    prec_xcid filled customer_id = Ok P ->
    rec_xcid filled customer_id = Ok Rc ->
    intra_map filled sort_column customer_id = Ok sorted ->
    tools.map_xcid sorted customer_id = Ok M ->
    sims_df cos sorted articles_df = Ok sims ->
    pairs_frame sorted customer_id = Ok pairs ->
    diversity_x_cid pairs sims customer_id = Ok D ->
    run cos recommendations true_labels articles_df sort_column customer_id
        cov P Rc M D.



(** The rows of [recs] after [explode]: one per customer and pair. *)
Definition exploded_pairs (L : list (Recommendation * Qc))
  : list (cell * option (cell * cell)) :=
  explode (map (fun k => (k, combinations2 (aids_of k L))) (customers L)).

(** The items table fits the recommendations: one feature vector per
    label, distinct labels, at least one of them not missing, no empty
    vector, and every recommended article among the labels. *)
Definition items_cover (items : FeatureFrame) (R : list Recommendation)
  : Prop :=
  length (ff_values items) = length (ff_index items)
  /\ NoDup (ff_index items)
  /\ nunique (ff_index items) <> 0%Z
  /\ Forall (fun v => v <> []) (ff_values items)
  /\ Forall (fun r => In (r_aid r) (ff_index items)) R.

(** The number of joined rows of customer [c]. *)
Definition rows_of (c : cell) (R : list Recommendation) (T : list TrueLabel)
  : nat :=
  length (labels_of c (labelled R T)).

(** A label between 0 and 1, and a table of labels whose values of
    [interested] are all of this kind. *)
Definition unit_label (q : Qc) : Prop := (0 <= q)%Qc /\ (q <= 1)%Qc.

Definition unit_labels (T : list TrueLabel) : Prop :=
  Forall (fun t => match t_interested t with
                   | Some q => unit_label q
                   | None => True
                   end) T.

(** The summary under another row label. *)
Definition rename (name : string) (s : Summary) : Summary :=
  {| index := [name]; columns := columns s; data := data s;
     index_names := index_names s; column_names := column_names s |}.

(** A recommendation with another value in the sort column. *)
Definition with_sort (f : Recommendation -> cell) (r : Recommendation)
  : Recommendation :=
  {| r_cid := r_cid r; r_aid := r_aid r; r_sort := f r |}.

(** The path of line 23, the file [show_article] opens. *)
Definition image_path (article_id : string) : string :=
  String.concat EmptyString
    [_IMAGES_PATH; "/"; slice_to 3 article_id; "/"; article_id; ".jpg"].






(** ** Examples *)

Module Examples.

(** The cosine of two vectors of norm 1 is their dot product. *)
Definition dot (u v : list Qc) : Qc :=
  total (map (fun p => fst p * snd p)%Qc (combine u v)).

Definition num (z : Z) : cell := Num (Qc_of_Z z).

Definition vec (l : list Z) : list Qc := map Qc_of_Z l.

(** The worked example of the specification. *)
Definition worked_R : list Recommendation :=
  [ {| r_cid := num 1; r_aid := Str "A01"; r_sort := num 1 |};
    {| r_cid := num 1; r_aid := Str "A02"; r_sort := num 2 |} ].

Definition worked_T : list TrueLabel :=
  [ {| t_cid := num 1; t_aid := Str "A01";
       t_interested := Some (Qc_of_Z 1) |} ].

Definition worked_items : FeatureFrame :=
  {| ff_index := [Str "A01"; Str "A02"];
     ff_values := [vec [1; 0]; vec [0; 1]]%Z |}.

Definition worked_call : result Summary :=
  get_metrics dot "engine" (recommendations_frame "cid" "rank" worked_R)
              (true_labels_frame "cid" worked_T) worked_items "rank" 5 "cid".

Definition no_summary : Summary :=
  {| index := []; columns := []; data := []; index_names := [];
     column_names := [] |}.

Definition worked_summary : Summary :=
  Eval vm_compute in
    match worked_call with Ok s => s | Raise _ => no_summary end.

(** An items table without the article A02 of the worked example. *)
Definition short_items : FeatureFrame :=
  {| ff_index := [Str "A01"]; ff_values := [vec [1; 0]]%Z |}.

(** The per-customer series of the worked example. *)
Definition worked_prec_xcid : result Series :=
  precision_series (recommendations_frame "cid" "rank" worked_R)
                   (true_labels_frame "cid" worked_T) "cid".

Definition worked_map_xcid : result Series :=
  map_series (recommendations_frame "cid" "rank" worked_R)
             (true_labels_frame "cid" worked_T) "rank" "cid".

(** The worked example with the hit A01 given the larger sort value. *)
Definition hit_first_R : list Recommendation :=
  [ {| r_cid := num 1; r_aid := Str "A01"; r_sort := num 2 |};
    {| r_cid := num 1; r_aid := Str "A02"; r_sort := num 1 |} ].

Definition hit_first_map_xcid : result Series :=
  map_series (recommendations_frame "cid" "rank" hit_first_R)
             (true_labels_frame "cid" worked_T) "rank" "cid".

(** The rationals of a row of the summary, a standard deviation shown by
    its square. *)
Definition shown (f : float) : option Q :=
  match f with
  | Rat q => Some (this q)
  | Sqrt v => Some (this v)
  | FNaN => None
  end.

(** Two customers and three items: the items A01 and A03 have the same
    feature vector, and customer 2 is recommended these two. *)
Definition twin_items : FeatureFrame :=
  {| ff_index := [Str "A01"; Str "A02"; Str "A03"];
     ff_values := [vec [1; 0]; vec [0; 1]; vec [1; 0]]%Z |}.

Definition twin_R : list Recommendation :=
  [ {| r_cid := num 1; r_aid := Str "A01"; r_sort := num 2 |};
    {| r_cid := num 1; r_aid := Str "A02"; r_sort := num 1 |};
    {| r_cid := num 2; r_aid := Str "A03"; r_sort := num 2 |};
    {| r_cid := num 2; r_aid := Str "A01"; r_sort := num 1 |} ].

Definition twin_diversity : result Series :=
  recs <- merged (recommendations_frame "cid" "score" twin_R)
                 (true_labels_frame "cid" worked_T) "cid" ;;
  recs <- fill_interested recs ;;
  recs <- intra_map recs "score" "cid" ;;
  sims <- sims_df dot recs twin_items ;;
  pairs <- pairs_frame recs "cid" ;;
  diversity_x_cid pairs sims "cid".

Definition twin_call : result Summary :=
  get_metrics dot "engine" (recommendations_frame "cid" "score" twin_R)
              (true_labels_frame "cid" worked_T) twin_items "score" 5 "cid".

(** The worked example and a second customer with a single
    recommendation. *)
Definition single_R : list Recommendation :=
  worked_R ++ [ {| r_cid := num 2; r_aid := Str "A01"; r_sort := num 1 |} ].

(** A directory of images that holds one file. *)
Definition disk : PIL.Imaging :=
  {| PIL.Image := string * (Z * Z);
     PIL.open := fun path =>
       if String.eqb path "./recursos/datos/images/010/0108775015.jpg"
       then Ok (path, (1166, 1750)%Z)
       else Raise (FileNotFoundError path);
     PIL.resize := fun im sz => Ok (fst im, sz);
     PIL.size := snd;
     PIL.resize_size := fun im sz im' H =>
       match H in (_ = r)
             return match r with Ok x => snd x = sz | Raise _ => True end
       with eq_refl => eq_refl end |}.


(** A host whose module is [/srv/app/tools.py], with one configuration
    file. *)
Definition app_host : host.Host :=
  {| host.__file__ := "tools.py";
     host.realpath := fun p => String.append "/srv/app/" p;
     host.TextIO := string;
     host.open := fun path =>
       if String.eqb path "/srv/app/configuration.yml" then Ok "k: 5"
       else Raise (FileNotFoundError path);
     host.read := fun conf_file => Ok conf_file;
     host.Dict := string;
     host.safe_load := fun configuration => Ok configuration |}.



End Examples.

Import Examples.

(** * Properties of the embedding *)

(** ** Computations that may raise *)

Lemma bind_Ok_inv {A B : Type} (m : result A) (f : A -> result B) (b : B) :
  bind m f = Ok b -> exists a, m = Ok a /\ f a = Ok b.
Proof.
  destruct m as [a|e]; simpl; intros H; [eauto | discriminate].
Qed.

Lemma traverse_Ok_map {A B : Type} (f : A -> result B) (g : A -> B)
  (l : list A) :
  (forall x, In x l -> f x = Ok (g x)) -> traverse f l = Ok (map g l).
Proof.
  induction l as [|x t IH]; simpl; intros H; [reflexivity|].
  rewrite (H x (or_introl eq_refl)); simpl.
  rewrite IH by auto. reflexivity.
Qed.

(** ** Lists *)

Section ListFacts.

Context {A B : Type}.

Lemma map_nth_seq (l : list A) (d : A) :
  map (fun i => nth i l d) (seq 0 (length l)) = l.
Proof.
  induction l as [|x t IH]; simpl; [reflexivity|].
  rewrite <- seq_shift, map_map. simpl. now rewrite IH.
Qed.

Lemma flat_map_ext_in (f g : A -> list B) (l : list A) :
  (forall x, In x l -> f x = g x) -> flat_map f l = flat_map g l.
Proof.
  induction l as [|x t IH]; simpl; intros H; [reflexivity|].
  rewrite H by auto. rewrite IH by auto. reflexivity.
Qed.

Lemma flat_map_map_in {C : Type} (f : A -> list B) (g : C -> A)
  (l : list C) :
  flat_map f (map g l) = flat_map (fun x => f (g x)) l.
Proof.
  induction l as [|x t IH]; simpl; [reflexivity | now rewrite IH].
Qed.

Lemma map_flat_map {C : Type} (h : B -> C) (f : A -> list B) (l : list A) :
  map h (flat_map f l) = flat_map (fun x => map h (f x)) l.
Proof.
  induction l as [|x t IH]; simpl; [reflexivity|].
  now rewrite map_app, IH.
Qed.

Lemma combine_map_map {C : Type} (f : A -> B) (g : A -> C) (l : list A) :
  combine (map f l) (map g l) = map (fun x => (f x, g x)) l.
Proof.
  induction l as [|x t IH]; simpl; [reflexivity | now rewrite IH].
Qed.

End ListFacts.

(** ** The stable sort *)

Section Sorting.

Context {A : Type}.

Lemma insert_perm (le : A -> A -> bool) (x : A) (l : list A) :
  Permutation (x :: l) (insert le x l).
Proof.
  induction l as [|y t IH]; simpl; [reflexivity|].
  destruct (le x y); [reflexivity|].
  rewrite perm_swap. now constructor.
Qed.

Lemma isort_perm (le : A -> A -> bool) (l : list A) :
  Permutation l (isort le l).
Proof.
  induction l as [|x t IH]; simpl; [constructor|].
  etransitivity; [|apply insert_perm]. now constructor.
Qed.

Lemma isort_In (le : A -> A -> bool) (l : list A) (x : A) :
  In x (isort le l) <-> In x l.
Proof.
  split; apply Permutation_in;
    [symmetry|]; apply isort_perm.
Qed.

Lemma isort_NoDup (le : A -> A -> bool) (l : list A) :
  NoDup l -> NoDup (isort le l).
Proof. apply Permutation_NoDup, isort_perm. Qed.

Lemma isort_length (le : A -> A -> bool) (l : list A) :
  length (isort le l) = length l.
Proof. symmetry. apply Permutation_length, isort_perm. Qed.

(** Sorting positions by the elements they point at is sorting the
    elements. *)
Lemma insert_map {I : Type} (le : A -> A -> bool) (g : I -> A) (i : I)
  (l : list I) :
  map g (insert (fun a b => le (g a) (g b)) i l) = insert le (g i) (map g l).
Proof.
  induction l as [|j t IH]; simpl; [reflexivity|].
  destruct (le (g i) (g j)); simpl; [reflexivity | now rewrite IH].
Qed.

Lemma isort_map {I : Type} (le : A -> A -> bool) (g : I -> A) (l : list I) :
  map g (isort (fun a b => le (g a) (g b)) l) = isort le (map g l).
Proof.
  induction l as [|i t IH]; simpl; [reflexivity|].
  now rewrite insert_map, IH.
Qed.

Lemma insert_ext (le le' : A -> A -> bool) (x : A) (l : list A) :
  (forall y, In y l -> le x y = le' x y) -> insert le x l = insert le' x l.
Proof.
  induction l as [|y t IH]; simpl; intros H; [reflexivity|].
  rewrite (H y) by auto. destruct (le' x y); [reflexivity|].
  now rewrite IH by auto.
Qed.

Lemma isort_ext (le le' : A -> A -> bool) (l : list A) :
  (forall x y, In x l -> In y l -> le x y = le' x y) ->
  isort le l = isort le' l.
Proof.
  induction l as [|x t IH]; simpl; intros H; [reflexivity|].
  rewrite IH by auto.
  apply insert_ext. intros y Hy. apply H; auto.
  right. now apply isort_In in Hy.
Qed.

End Sorting.

(** ** Cells, distinct values and groups *)

Lemma cell_eqb_spec (a b : cell) : reflect (a = b) (cell_eqb a b).
Proof.
  destruct a as [x|s|], b as [y|t|]; simpl;
    try (constructor; congruence).
  - destruct (Qeq_bool x y) eqn:E; constructor.
    + f_equal. apply Qc_is_canon. now apply Qeq_bool_iff.
    + intros H. injection H as ->.
      assert (Qeq_bool y y = true) by (apply Qeq_bool_iff; reflexivity).
      congruence.
  - destruct (String.eqb_spec s t); constructor; congruence.
Qed.

Lemma cell_eqb_refl (a : cell) : cell_eqb a a = true.
Proof. now destruct (cell_eqb_spec a a). Qed.


Definition cell_eq_dec (a b : cell) : {a = b} + {a <> b}.
Proof.
  destruct (cell_eqb_spec a b); [left | right]; assumption.
Defined.

Lemma isin_In (c : cell) (l : list cell) : isin c l = true <-> In c l.
Proof.
  unfold isin. rewrite existsb_exists. split.
  - intros [x [Hx E]]. destruct (cell_eqb_spec c x); congruence.
  - intros H. exists c. split; [assumption | apply cell_eqb_refl].
Qed.

Lemma unique_In (l : list cell) (c : cell) : In c (unique l) <-> In c l.
Proof.
  induction l as [|x t IH]; simpl; [tauto|].
  rewrite filter_In, IH.
  destruct (cell_eqb_spec x c); simpl; intuition congruence.
Qed.

Lemma unique_NoDup (l : list cell) : NoDup (unique l).
Proof.
  induction l as [|x t IH]; simpl; constructor.
  - rewrite filter_In, cell_eqb_refl. simpl. intros [_ H]. discriminate.
  - now apply NoDup_filter.
Qed.

Lemma group_keys_In (keys : list cell) (c : cell) :
  In c (group_keys keys) <-> In c keys /\ c <> NaN.
Proof.
  unfold group_keys. rewrite isort_In, unique_In, filter_In.
  destruct c; simpl; intuition congruence.
Qed.

Lemma group_keys_NoDup (keys : list cell) : NoDup (group_keys keys).
Proof. apply isort_NoDup, unique_NoDup. Qed.

(** ** Column names *)

Lemma valid_names_neq (customer_id sort_column : string) :
  valid_names customer_id sort_column = true ->
  customer_id <> sort_column
  /\ Forall (fun n => customer_id <> n) own_names
  /\ Forall (fun n => sort_column <> n) own_names.
Proof.
  unfold valid_names, mem. simpl.
  rewrite !andb_true_iff, !negb_true_iff, !orb_false_iff.
  rewrite !String.eqb_neq.
  intros [[H1 H2] H3]. repeat split; try tauto.
  - repeat constructor; tauto.
  - repeat constructor; tauto.
Qed.

(** Decides the comparisons of column names that occur in a goal. *)
Ltac names :=
  repeat match goal with
    | |- context [String.eqb ?a ?a] => rewrite (String.eqb_refl a)
    | |- context [String.eqb ?a ?b] =>
        rewrite (proj2 (String.eqb_neq a b)) by congruence
    end.

Ltac frame_step :=
  cbn [filter existsb fst snd negb orb andb map pd.columns app nrows
       getcol setitem bind].

Ltac frame := repeat (progress (frame_step; names)).

Ltac split_names H :=
  unfold own_names in H;
  repeat match type of H with
    | Forall _ (_ :: _) =>
        let H' := fresh "Hn" in
        apply Forall_cons_iff in H; destruct H as [H' H]
    end;
  clear H.

Ltac use_valid_names H :=
  let H1 := fresh "Hcs" in
  let H2 := fresh "Hown" in
  let H3 := fresh "Hsort" in
  apply valid_names_neq in H; destruct H as (H1 & H2 & H3);
  split_names H2; split_names H3.

(** ** The left join *)

Lemma nth_map_cell {X : Type} (f : X -> cell) (d : X) (l : list X)
  (i : nat) :
  f d = NaN -> nth i (map f l) NaN = f (nth i l d).
Proof. intros E. rewrite <- E. apply map_nth. Qed.

Lemma join_indexer_typed (R : list Recommendation) (T : list TrueLabel) :
  map (fun p => (nth (fst p) R no_recommendation,
                 option_map (fun j => nth j T no_label) (snd p)))
      (join_indexer Left [map r_cid R; map r_aid R]
                    [map t_cid T; map t_aid T] (length R) (length T))
  = left_join R T.
Proof.
  unfold join_indexer, left_join.
  rewrite map_flat_map.
  rewrite <- (map_nth_seq R no_recommendation) at 2.
  rewrite flat_map_map_in.
  apply flat_map_ext_in. intros i _.
  set (r := nth i R no_recommendation).
  rewrite <- (map_nth_seq T no_label) at 2.
  rewrite filter_map_swap.
  assert (E : filter (fun j => keys_eqb (key_at [map r_cid R; map r_aid R] i)
                                 (key_at [map t_cid T; map t_aid T] j))
                (seq 0 (length T))
              = filter (fun j => matches r (nth j T no_label))
                  (seq 0 (length T))).
  { apply filter_ext. intros j. unfold key_at, matches. simpl.
    rewrite (nth_map_cell r_cid no_recommendation),
      (nth_map_cell r_aid no_recommendation),
      (nth_map_cell t_cid no_label), (nth_map_cell t_aid no_label)
      by reflexivity.
    now rewrite andb_true_r. }
  rewrite E. clear E.
  destruct (filter _ (seq 0 (length T))) as [|j js]; [reflexivity|].
  cbn [map]. f_equal. rewrite !map_map. reflexivity.
Qed.

Lemma take_typed {X : Type} (f : X -> cell) (d : X) (l : list X)
  (idx : list nat) :
  f d = NaN -> take idx (map f l) = map f (map (fun i => nth i l d) idx).
Proof.
  intros E. unfold take. rewrite map_map. apply map_ext. intros i.
  now apply nth_map_cell.
Qed.

Lemma merged_typed (customer_id sort_column : string)
  (R : list Recommendation) (T : list TrueLabel) :
  valid_names customer_id sort_column = true ->
  merged (recommendations_frame customer_id sort_column R)
         (true_labels_frame customer_id T) customer_id
  = Ok (joined_frame customer_id sort_column (left_join R T)).
Proof.
  intros V. use_valid_names V.
  unfold merged, merge, recommendations_frame, true_labels_frame,
    joined_frame, getitem.
  cbn [merge_keys getitem getcol bind fst snd]. unfold getitem.
  cbn [getcol]. names. cbn [bind fst snd].
  unfold mem. frame.
  rewrite !length_map.
  rewrite <- (join_indexer_typed R T).
  set (idx := join_indexer _ _ _ _ _).
  rewrite !(take_typed _ no_recommendation) by reflexivity.
  rewrite !map_map. cbn [fst snd].
  do 4 apply f_equal. apply (f_equal (fun col => [(_, col)])).
  unfold take_opt. rewrite !map_map. apply map_ext. intros [i [j|]];
    cbn [fst snd option_map]; [|reflexivity].
  now apply (nth_map_cell (fun t => of_number (t_interested t))).
Qed.

(** ** Labels, groups and reductions *)

Lemma fill_interested_typed (customer_id sort_column : string)
  (J : list (Recommendation * option TrueLabel)) :
  valid_names customer_id sort_column = true ->
  fill_interested (joined_frame customer_id sort_column J)
  = Ok (labelled_frame customer_id sort_column
          (map (fun j => (fst j, label j)) J)).
Proof.
  intros V. use_valid_names V.
  unfold fill_interested, joined_frame, labelled_frame, getitem.
  frame. unfold fillna. rewrite !map_map. cbn [fst snd].
  do 4 apply f_equal. apply (f_equal (fun col => [(_, col)])).
  apply map_ext. intros [r [[c a [q|]]|]]; reflexivity.
Qed.

Lemma group_values_map {X V : Type} (f : X -> cell) (g : X -> V) (c : cell)
  (l : list X) :
  group_values c (map f l) (map g l)
  = map g (filter (fun x => cell_eqb (f x) c) l).
Proof.
  unfold group_values.
  rewrite combine_map_map, filter_map_swap, map_map. reflexivity.
Qed.

Lemma traverse_map_Ok {X Y Z : Type} (f : Y -> result Z) (g : X -> Y)
  (h : X -> Z) (l : list X) :
  (forall x, In x l -> f (g x) = Ok (h x)) ->
  traverse f (map g l) = Ok (map h l).
Proof.
  induction l as [|x t IH]; simpl; intros H; [reflexivity|].
  rewrite (H x (or_introl eq_refl)); simpl.
  rewrite IH by auto. reflexivity.
Qed.

Lemma numeric_Ok (col : list cell) :
  forallb is_numeric col = true -> numeric col = Ok (map number_of col).
Proof.
  intros H. apply traverse_Ok_map. intros c Hc.
  rewrite forallb_forall in H. specialize (H c Hc).
  destruct c; [reflexivity | discriminate | reflexivity].
Qed.

Lemma numeric_Num {X : Type} (g : X -> Qc) (l : list X) :
  numeric (map (fun x => Num (g x)) l) = Ok (map (fun x => Some (g x)) l).
Proof.
  rewrite numeric_Ok.
  - now rewrite map_map.
  - rewrite forallb_forall. intros c Hc. apply in_map_iff in Hc.
    destruct Hc as [x [<- _]]. reflexivity.
Qed.

Lemma valid_values_Some {X : Type} (g : X -> Qc) (l : list X) :
  valid_values (map (fun x => Some (g x)) l) = map g l.
Proof.
  unfold valid_values.
  induction l as [|x t IH]; simpl; [reflexivity | now rewrite IH].
Qed.

Lemma mean_Some {X : Type} (g : X -> Qc) (l : list X) :
  mean (map (fun x => Some (g x)) l) = average (map g l).
Proof.
  unfold mean, average. rewrite valid_values_Some.
  destruct (map g l); reflexivity.
Qed.

Lemma sum_Some {X : Type} (g : X -> Qc) (l : list X) :
  sum (map (fun x => Some (g x)) l) = Some (total (map g l)).
Proof. unfold sum. now rewrite valid_values_Some. Qed.

(** The groups of a column of the labelled frame. *)
Lemma groupby_col_typed (customer_id sort_column col : string)
  (L : list (Recommendation * Qc)) (vals : list cell) :
  valid_names customer_id sort_column = true ->
  getitem (labelled_frame customer_id sort_column L) col = Ok vals ->
  groupby_col (labelled_frame customer_id sort_column L) customer_id col
  = Ok {| gb_keys := map (fun j => r_cid (fst j)) L;
          gb_groups := groupby (map (fun j => r_cid (fst j)) L) vals |}.
Proof.
  intros V Hcol. unfold groupby_col. rewrite Hcol.
  use_valid_names V.
  unfold labelled_frame, getitem. frame. reflexivity.
Qed.

Lemma getitem_interested (customer_id sort_column : string)
  (L : list (Recommendation * Qc)) :
  valid_names customer_id sort_column = true ->
  getitem (labelled_frame customer_id sort_column L) "interested"
  = Ok (map (fun j => Num (snd j)) L).
Proof.
  intros V. use_valid_names V. unfold labelled_frame, getitem. frame.
  reflexivity.
Qed.

Lemma getitem_article_id (customer_id sort_column : string)
  (L : list (Recommendation * Qc)) :
  valid_names customer_id sort_column = true ->
  getitem (labelled_frame customer_id sort_column L) "article_id"
  = Ok (map (fun j => r_aid (fst j)) L).
Proof.
  intros V. use_valid_names V. unfold labelled_frame, getitem. frame.
  reflexivity.
Qed.

(** A reduction of the label column, group by group. *)
Lemma agg_labels (f : list (option Qc) -> option Qc)
  (h : list Qc -> option Qc) (L : list (Recommendation * Qc)) :
  (forall l : list (Recommendation * Qc),
      f (map (fun j => Some (snd j)) l) = h (map snd l)) ->
  agg f {| gb_keys := map (fun j => r_cid (fst j)) L;
           gb_groups := groupby (map (fun j => r_cid (fst j)) L)
                                (map (fun j => Num (snd j)) L) |}
  = Ok (map (fun c => (c, h (labels_of c L))) (customers L)).
Proof.
  intros Hf. unfold agg, groupby, customers. cbn [gb_groups].
  apply traverse_map_Ok. intros k _. cbn [fst snd].
  rewrite group_values_map, numeric_Num. cbn [bind].
  unfold labels_of. now rewrite Hf.
Qed.

Lemma prec_xcid_typed (customer_id sort_column : string)
  (L : list (Recommendation * Qc)) :
  valid_names customer_id sort_column = true ->
  prec_xcid (labelled_frame customer_id sort_column L) customer_id
  = Ok (map (fun c => (c, average (labels_of c L))) (customers L)).
Proof.
  intros V. unfold prec_xcid.
  rewrite (groupby_col_typed _ _ _ _ _ V (getitem_interested _ _ _ V)).
  cbn [bind]. apply agg_labels. intros l. apply mean_Some.
Qed.

Lemma Qc_of_Z_10_nonzero : Qeq_bool (Qc_of_Z 10) 0 = false.
Proof. reflexivity. Qed.

Lemma rec_xcid_typed (customer_id sort_column : string)
  (L : list (Recommendation * Qc)) :
  valid_names customer_id sort_column = true ->
  rec_xcid (labelled_frame customer_id sort_column L) customer_id
  = Ok (map (fun c => (c, Some (total (labels_of c L) / Qc_of_Z 10)%Qc))
            (customers L)).
Proof.
  intros V. unfold rec_xcid.
  rewrite (groupby_col_typed _ _ _ _ _ V (getitem_interested _ _ _ V)).
  cbn [bind].
  rewrite (agg_labels sum (fun l => Some (total l))) by apply sum_Some.
  cbn [bind]. rewrite map_map. reflexivity.
Qed.

(** ** Sorting the joined rows *)

Lemma take_in_range {X : Type} (f : X -> cell) (d : X) (l : list X)
  (idx : list nat) :
  (forall i, In i idx -> i < length l) ->
  take idx (map f l) = map f (map (fun i => nth i l d) idx).
Proof.
  intros H. unfold take. rewrite map_map. apply map_ext_in. intros i Hi.
  rewrite (nth_indep _ NaN (f d)) by (rewrite length_map; auto).
  apply map_nth.
Qed.

Lemma argsort_typed (L : list (Recommendation * Qc)) :
  map (fun i => nth i L no_row)
      (isort (fun i j =>
                lex_leb [false; false]
                  (key_at [map (fun j => r_cid (fst j)) L;
                           map (fun j => r_sort (fst j)) L] i)
                  (key_at [map (fun j => r_cid (fst j)) L;
                           map (fun j => r_sort (fst j)) L] j))
             (seq 0 (length L)))
  = isort goes_before L.
Proof.
  rewrite (isort_ext _ (fun i j => goes_before (nth i L no_row)
                                               (nth j L no_row))).
  - rewrite (isort_map goes_before (fun i => nth i L no_row)).
    now rewrite map_nth_seq.
  - intros i j _ _. unfold key_at, goes_before. cbn [map].
    now rewrite !(nth_map_cell _ no_row) by reflexivity.
Qed.

Lemma sort_values_typed (customer_id sort_column : string)
  (L : list (Recommendation * Qc)) :
  valid_names customer_id sort_column = true ->
  sort_values (labelled_frame customer_id sort_column L)
              [customer_id; sort_column] [false; false]
  = Ok (labelled_frame customer_id sort_column (isort goes_before L)).
Proof.
  intros V. use_valid_names V.
  unfold sort_values, labelled_frame. cbn [traverse]. unfold getitem.
  frame. rewrite length_map.
  set (idx := isort _ (seq 0 (length L))).
  assert (Hidx : forall i, In i idx -> i < length L).
  { intros i Hi. apply isort_In in Hi. apply in_seq in Hi. lia. }
  rewrite !(take_in_range _ no_row) by assumption.
  unfold idx. rewrite argsort_typed. reflexivity.
Qed.

(** ** Putting the results of the groups back on the rows *)

Lemma scatter_length (keys : list cell) (gs : list (cell * list cell)) :
  length (scatter keys gs) = length keys.
Proof.
  revert gs. induction keys as [|k ks IH]; intros gs; simpl; [reflexivity|].
  destruct (pop k gs) as [[v gs']|]; simpl; now rewrite IH.
Qed.

Lemma pop_None (k : cell) (gs : list (cell * list cell)) :
  NoDup (map fst gs) ->
  pop k gs = None -> forall v vs, ~ In (k, v :: vs) gs.
Proof.
  induction gs as [|[k' ws] t IH]; simpl; intros ND H v vs; [tauto|].
  inversion ND as [|? ? Hk' ND']; subst.
  destruct (cell_eqb_spec k' k) as [->|Hne].
  - destruct ws as [|w ws]; [|discriminate].
    intros [E|Hin]; [discriminate|].
    apply Hk'. apply (in_map fst) in Hin. exact Hin.
  - destruct (pop k t) as [[v' t']|] eqn:E; [discriminate|].
    intros [E'|Hin]; [congruence|]. now apply (IH ND' eq_refl v vs).
Qed.

Lemma pop_Some (k : cell) (gs gs' : list (cell * list cell)) (v : cell) :
  NoDup (map fst gs) ->
  pop k gs = Some (v, gs') ->
  map fst gs' = map fst gs
  /\ (exists vs, In (k, v :: vs) gs /\ In (k, vs) gs')
  /\ (forall c ws, c <> k -> (In (c, ws) gs <-> In (c, ws) gs')).
Proof.
  revert gs'.
  induction gs as [|[k' ws] t IH]; simpl; intros gs' ND H; [discriminate|].
  inversion ND as [|? ? Hk' ND']; subst.
  destruct (cell_eqb_spec k' k) as [->|Hne].
  - destruct ws as [|w ws]; [discriminate|].
    injection H as <- <-. simpl. split; [reflexivity|]. split.
    + exists ws. auto.
    + intros c ws' Hc. split; intros [E|Hin]; auto; congruence.
  - destruct (pop k t) as [[v' t']|] eqn:E; [|discriminate].
    injection H as <- <-.
    destruct (IH t' ND' eq_refl) as (Hfst & [vs [H1 H2]] & Hoth).
    simpl. split; [now rewrite Hfst|]. split.
    + exists vs. auto.
    + intros c ws' Hc. rewrite (Hoth c ws' Hc). tauto.
Qed.

Lemma In_fst_unique {X Y : Type} (gs : list (X * Y)) (k : X) (a b : Y) :
  NoDup (map fst gs) -> In (k, a) gs -> In (k, b) gs -> a = b.
Proof.
  induction gs as [|[k' w] t IH]; simpl; intros ND Ha Hb; [tauto|].
  inversion ND as [|? ? Hk' ND']; subst.
  destruct Ha as [Ea|Ha], Hb as [Eb|Hb].
  - congruence.
  - injection Ea as -> ->. exfalso. apply Hk'.
    apply (in_map fst) in Hb. exact Hb.
  - injection Eb as -> ->. exfalso. apply Hk'.
    apply (in_map fst) in Ha. exact Ha.
  - now apply IH.
Qed.

Lemma group_values_cons {V : Type} (c k : cell) (ks : list cell) (v : V)
  (vs : list V) :
  group_values c (k :: ks) (v :: vs)
  = (if cell_eqb k c then [v] else []) ++ group_values c ks vs.
Proof.
  unfold group_values. simpl. destruct (cell_eqb k c); reflexivity.
Qed.

(** The results read back group by group are the results of the groups. *)
Lemma scatter_group (keys : list cell) (gs : list (cell * list cell)) :
  NoDup (map fst gs) ->
  (forall k vs, In (k, vs) gs -> length vs = occurrences k keys) ->
  forall c vs, In (c, vs) gs ->
               group_values c keys (scatter keys gs) = vs.
Proof.
  revert gs. induction keys as [|k ks IH]; intros gs ND Hlen c vs Hin.
  - specialize (Hlen c vs Hin). destruct vs; [reflexivity | discriminate].
  - cbn [scatter]. destruct (pop k gs) as [[v gs']|] eqn:E.
    + destruct (pop_Some k gs gs' v ND E) as (Hfst & [ws [H1 H2]] & Hoth).
      rewrite group_values_cons.
      assert (ND' : NoDup (map fst gs')) by now rewrite Hfst.
      assert (Hlen' : forall k0 vs0, In (k0, vs0) gs' ->
                                     length vs0 = occurrences k0 ks).
      { intros k0 vs0 H0. destruct (cell_eqb_spec k k0) as [<-|Hne].
        - rewrite (In_fst_unique gs' k vs0 ws ND' H0 H2).
          specialize (Hlen k (v :: ws) H1). unfold occurrences in *.
          simpl in Hlen. rewrite cell_eqb_refl in Hlen. simpl in Hlen. lia.
        - assert (H0' : In (k0, vs0) gs) by (apply Hoth; congruence).
          specialize (Hlen k0 vs0 H0'). unfold occurrences in *.
          simpl in Hlen. destruct (cell_eqb_spec k k0); [congruence|].
          exact Hlen. }
      destruct (cell_eqb_spec k c) as [<-|Hne].
      * rewrite (In_fst_unique gs k vs (v :: ws) ND Hin H1).
        simpl. f_equal. now apply (IH gs').
      * simpl. apply (IH gs' ND' Hlen'). apply Hoth; congruence.
    + rewrite group_values_cons.
      assert (Hk : forall ws, In (k, ws) gs -> False).
      { intros ws Hw. specialize (Hlen k ws Hw).
        unfold occurrences in Hlen. simpl in Hlen.
        rewrite cell_eqb_refl in Hlen. destruct ws as [|w ws].
        - discriminate.
        - exact (pop_None k gs ND E w ws Hw). }
      destruct (cell_eqb_spec k c) as [<-|Hne].
      * exfalso. exact (Hk vs Hin).
      * simpl. apply (IH gs ND); [|assumption].
        intros k0 vs0 H0. specialize (Hlen k0 vs0 H0).
        unfold occurrences in *. simpl in Hlen.
        destruct (cell_eqb_spec k k0) as [<-|]; [|exact Hlen].
        exfalso. exact (Hk vs0 H0).
Qed.

Lemma pop_forallb (P : cell -> bool) (k : cell)
  (gs gs' : list (cell * list cell)) (v : cell) :
  (forall k0 vs, In (k0, vs) gs -> forallb P vs = true) ->
  pop k gs = Some (v, gs') ->
  P v = true /\ (forall k0 vs, In (k0, vs) gs' -> forallb P vs = true).
Proof.
  revert gs'.
  induction gs as [|[k' ws] t IH]; simpl; intros gs' H E; [discriminate|].
  destruct (cell_eqb k' k).
  - destruct ws as [|w ws]; [discriminate|]. injection E as <- <-.
    pose proof (H k' (w :: ws) (or_introl eq_refl)) as Hw.
    simpl in Hw. apply andb_true_iff in Hw. destruct Hw as [Hw1 Hw2].
    split; [assumption|]. intros k0 vs0 [E0|H0].
    + now injection E0 as <- <-.
    + apply (H k0). now right.
  - destruct (pop k t) as [[v' t']|] eqn:E'; [|discriminate].
    injection E as <- <-.
    assert (Ht : forall k0 vs0, In (k0, vs0) t -> forallb P vs0 = true).
    { intros k0 vs0 H0. apply (H k0). now right. }
    destruct (IH t' Ht eq_refl) as [Hv Hrest].
    split; [assumption|]. intros k0 vs0 [E0|H0].
    + injection E0 as <- <-. apply (H k' ws). now left.
    + now apply (Hrest k0).
Qed.

Lemma scatter_forallb (P : cell -> bool) (keys : list cell)
  (gs : list (cell * list cell)) :
  P NaN = true ->
  (forall k vs, In (k, vs) gs -> forallb P vs = true) ->
  forallb P (scatter keys gs) = true.
Proof.
  intros HN. revert gs.
  induction keys as [|k ks IH]; intros gs H; simpl; [reflexivity|].
  destruct (pop k gs) as [[v gs']|] eqn:E; simpl.
  - destruct (pop_forallb P k gs gs' v H E) as [Hv Hrest].
    rewrite Hv. simpl. now apply IH.
  - rewrite HN. simpl. now apply IH.
Qed.

(** ** The running precision *)

Lemma combine_map_both {X Y X' Y' : Type} (f : X -> X') (g : Y -> Y')
  (a : list X) (b : list Y) :
  combine (map f a) (map g b)
  = map (fun p => (f (fst p), g (snd p))) (combine a b).
Proof.
  revert b. induction a as [|x a IH]; intros [|y b]; simpl;
    try reflexivity. now rewrite IH.
Qed.

Lemma col_op_numeric (op : option Qc -> option Qc -> option Qc)
  (a b : list cell) :
  forallb is_numeric a = true -> forallb is_numeric b = true ->
  col_op op a b
  = Ok (map (fun p => cell_op op (fst p) (snd p)) (combine a b)).
Proof.
  intros Ha Hb. unfold col_op.
  rewrite (numeric_Ok a Ha), (numeric_Ok b Hb). cbn [bind].
  rewrite combine_map_both, map_map. reflexivity.
Qed.

Lemma is_numeric_of_number (l : list (option Qc)) :
  forallb is_numeric (map of_number l) = true.
Proof.
  rewrite forallb_forall. intros c Hc. apply in_map_iff in Hc.
  destruct Hc as [[q|] [<- _]]; reflexivity.
Qed.

Lemma expanding_sum_from_length (mp : nat) (acc : Qc) (nobs : nat)
  (l : list (option Qc)) :
  length (expanding_sum_from mp acc nobs l) = length l.
Proof.
  revert acc nobs. induction l as [|x t IH]; intros acc nobs; simpl;
    [reflexivity | now rewrite IH].
Qed.

Lemma expanding_count_from_length (mp cnt nobs : nat) (l : list cell) :
  length (expanding_count_from mp cnt nobs l) = length l.
Proof.
  revert cnt nobs. induction l as [|x t IH]; intros cnt nobs; simpl;
    [reflexivity | now rewrite IH].
Qed.

Lemma is_numeric_counts (mp cnt nobs : nat) (l : list cell) :
  forallb is_numeric (expanding_count_from mp cnt nobs l) = true.
Proof.
  revert cnt nobs. induction l as [|x t IH]; intros cnt nobs; simpl;
    [reflexivity|].
  rewrite IH. now destruct (mp <=? S nobs).
Qed.

Lemma occurrences_group (c : cell) (L : list (Recommendation * Qc)) :
  occurrences c (keys_of L)
  = length (filter (fun j => cell_eqb (r_cid (fst j)) c) L).
Proof.
  unfold occurrences, keys_of. now rewrite filter_map_swap, length_map.
Qed.

(** A [transform] on a column of the labelled frame. *)
Lemma transform_typed (f : list cell -> result (list cell))
  (F : cell -> list cell) (L : list (Recommendation * Qc))
  (vals : list cell) :
  (forall k, f (group_values k (keys_of L) vals) = Ok (F k)) ->
  transform f {| gb_keys := keys_of L;
                 gb_groups := groupby (keys_of L) vals |}
  = Ok (scatter (keys_of L) (map (fun k => (k, F k)) (customers L))).
Proof.
  intros H. unfold transform, groupby. cbn [gb_groups gb_keys].
  rewrite (traverse_map_Ok _ _ (fun k => (k, F k))).
  - reflexivity.
  - intros k _. cbn [fst snd]. now rewrite H.
Qed.

Lemma labelled_frame_keys (customer_id sort_column : string)
  (L : list (Recommendation * Qc)) (extra : DataFrame) :
  getitem (labelled_frame customer_id sort_column L ++ extra) customer_id
  = Ok (keys_of L).
Proof.
  unfold labelled_frame, getitem. cbn [app getcol].
  now rewrite String.eqb_refl.
Qed.

Lemma intra_map_typed (customer_id sort_column : string)
  (L : list (Recommendation * Qc)) :
  valid_names customer_id sort_column = true ->
  intra_map (labelled_frame customer_id sort_column L)
            sort_column customer_id
  = Ok (intra_frame customer_id sort_column (isort goes_before L)).
Proof.
  intros V. unfold intra_map.
  rewrite (sort_values_typed _ _ _ V). cbn [bind].
  set (S := isort goes_before L).
  rewrite (groupby_col_typed _ _ _ _ _ V (getitem_interested _ _ _ V)).
  cbn [bind]. fold (keys_of S).
  rewrite (transform_typed _ (fun k => running_sums (labels_of k S))).
  2:{ intros k. unfold keys_of. rewrite group_values_map.
      unfold expanding_sum. rewrite numeric_Num. cbn [bind].
      unfold running_sums, labels_of. now rewrite !map_map. }
  cbn [bind]. fold (sum_column S).
  pose proof V as V'. use_valid_names V'.
  unfold groupby_col, labelled_frame, getitem. frame.
  fold (keys_of S).
  rewrite (transform_typed _ (fun k => running_counts (aids_of k S))).
  2:{ intros k. unfold keys_of. rewrite group_values_map. reflexivity. }
  cbn [bind]. fold (count_column S). frame.
  rewrite col_op_numeric.
  2:{ apply scatter_forallb; [reflexivity|]. intros k vs Hin.
      apply in_map_iff in Hin. destruct Hin as [k' [E _]].
      injection E as <- <-. apply is_numeric_of_number. }
  2:{ apply scatter_forallb; [reflexivity|]. intros k vs Hin.
      apply in_map_iff in Hin. destruct Hin as [k' [E _]].
      injection E as <- <-. apply is_numeric_counts. }
  fold (ratio_column S). frame.
  rewrite col_op_numeric.
  2:{ unfold ratio_column, cell_op. rewrite <- map_map.
      apply is_numeric_of_number. }
  2:{ rewrite forallb_forall. intros c Hc. apply in_map_iff in Hc.
      destruct Hc as [j [<- _]]. reflexivity. }
  fold (intra_column S). frame. reflexivity.
Qed.

Lemma expanding_sum_from_closed (acc : Qc) (nobs : nat) (l : list Qc) :
  expanding_sum_from 1 acc nobs (map Some l)
  = map (fun p => Some (acc + total (firstn (S p) l))%Qc)
        (seq 0 (length l)).
Proof.
  revert acc nobs. induction l as [|q t IH]; intros acc nobs;
    [reflexivity|].
  cbn [map expanding_sum_from length seq Nat.leb].
  rewrite IH, <- seq_shift, map_map. f_equal.
  - f_equal. cbn. ring.
  - apply map_ext. intros p. f_equal. cbn [firstn total fold_right]. ring.
Qed.

Lemma running_sums_closed (l : list Qc) :
  running_sums l
  = map (fun p => Num (total (firstn (S p) l))) (seq 0 (length l)).
Proof.
  unfold running_sums. rewrite expanding_sum_from_closed, map_map.
  apply map_ext. intros p. cbn [of_number]. f_equal. ring.
Qed.

Lemma expanding_count_from_closed (cnt nobs : nat) (l : list cell) :
  forallb notna l = true ->
  expanding_count_from 1 cnt nobs l
  = map (fun p => Num (Qc_of_nat (cnt + S p))) (seq 0 (length l)).
Proof.
  revert cnt nobs. induction l as [|x t IH]; intros cnt nobs H;
    [reflexivity|].
  cbn [forallb] in H. apply andb_true_iff in H. destruct H as [Hx Ht].
  cbn [expanding_count_from length seq map Nat.leb]. rewrite Hx.
  rewrite (IH _ _ Ht), <- seq_shift, map_map. f_equal.
  - do 2 f_equal. lia.
  - apply map_ext. intros p. do 2 f_equal. lia.
Qed.

Lemma running_counts_closed (l : list cell) :
  forallb notna l = true ->
  running_counts l = map (fun p => Num (Qc_of_nat (S p))) (seq 0 (length l)).
Proof. intros H. unfold running_counts. now rewrite expanding_count_from_closed. Qed.

Lemma Qc_of_nat_S_nonzero (p : nat) : Qeq_bool (Qc_of_nat (S p)) 0 = false.
Proof.
  destruct (Qeq_bool (Qc_of_nat (S p)) 0) eqn:E; [|reflexivity].
  apply Qeq_bool_iff in E. unfold Qc_of_nat, Qc_of_Z in E. cbn [this Q2Qc] in E.
  rewrite Qred_correct in E. unfold Qeq in E. simpl in E. lia.
Qed.

Lemma group_values_combine {X Y Z : Type} (h : X * Y -> Z) (c : cell)
  (keys : list cell) (a : list X) (b : list Y) :
  length a = length keys -> length b = length keys ->
  group_values c keys (map h (combine a b))
  = map h (combine (group_values c keys a) (group_values c keys b)).
Proof.
  revert a b. induction keys as [|k ks IH]; intros [|x a] [|y b] Ha Hb;
    try discriminate; [reflexivity|].
  cbn [combine map]. rewrite !group_values_cons.
  injection Ha as Ha. injection Hb as Hb. rewrite (IH a b Ha Hb).
  destruct (cell_eqb k c); reflexivity.
Qed.

Section Groups.

Variable L : list (Recommendation * Qc).

Variable F : cell -> list cell.

Hypothesis F_length :
  forall k, length (F k)
            = length (filter (fun j => cell_eqb (r_cid (fst j)) k) L).

(** Reading a transformed column back by group. *)
Lemma group_values_scatter (c : cell) :
  In c (customers L) ->
  group_values c (keys_of L)
    (scatter (keys_of L) (map (fun k => (k, F k)) (customers L)))
  = F c.
Proof.
  intros Hc. apply scatter_group.
  - rewrite map_map. cbn [fst]. rewrite map_id. apply group_keys_NoDup.
  - intros k vs Hin. apply in_map_iff in Hin. destruct Hin as [k' [E _]].
    injection E as <- <-. now rewrite occurrences_group.
  - apply in_map_iff. now exists c.
Qed.

End Groups.

Lemma intra_column_group (L : list (Recommendation * Qc)) (c : cell) :
  forallb (fun j => notna (r_aid (fst j))) L = true ->
  In c (customers L) ->
  group_values c (keys_of L) (intra_column L)
  = map (fun p => Num (running_precision (labels_of c L) p
                       * nth p (labels_of c L) 0)%Qc)
        (seq 0 (length (labels_of c L))).
Proof.
  intros Haid Hc. unfold intra_column, ratio_column.
  rewrite group_values_combine.
  2:{ rewrite length_map, length_combine. unfold sum_column, count_column.
      rewrite !scatter_length. lia. }
  2:{ unfold keys_of. now rewrite !length_map. }
  rewrite group_values_combine.
  2:{ unfold sum_column. now rewrite scatter_length. }
  2:{ unfold count_column. now rewrite scatter_length. }
  unfold sum_column, count_column.
  rewrite (group_values_scatter L (fun k => running_sums (labels_of k L))),
    (group_values_scatter L (fun k => running_counts (aids_of k L)));
    try assumption.
  2:{ intros k. unfold running_counts, aids_of.
      now rewrite expanding_count_from_length, length_map. }
  2:{ intros k. unfold running_sums, labels_of.
      now rewrite length_map, expanding_sum_from_length, !length_map. }
  unfold keys_of. rewrite group_values_map.
  replace (map (fun j : Recommendation * Qc => Num (snd j))
             (filter (fun x => cell_eqb (r_cid (fst x)) c) L))
    with (map (fun p => Num (nth p (labels_of c L) 0%Qc))
              (seq 0 (length (labels_of c L)))).
  2:{ rewrite <- (map_map (fun p => nth p (labels_of c L) 0%Qc) Num).
      rewrite map_nth_seq. unfold labels_of. now rewrite map_map. }
  rewrite running_sums_closed, running_counts_closed.
  2:{ unfold aids_of. rewrite forallb_forall. intros a Ha.
      apply in_map_iff in Ha. destruct Ha as [j [<- Hj]].
      apply filter_In in Hj. destruct Hj as [Hj _].
      rewrite forallb_forall in Haid. now apply Haid. }
  replace (length (aids_of c L)) with (length (labels_of c L))
    by (unfold aids_of, labels_of; now rewrite !length_map).
  rewrite combine_map_map, map_map, combine_map_map, map_map.
  apply map_ext. intros p. cbn [fst snd]. unfold cell_op.
  cbn [number_of number_div of_number]. rewrite Qc_of_nat_S_nonzero.
  reflexivity.
Qed.

Lemma map_xcid_typed (customer_id sort_column : string)
  (L : list (Recommendation * Qc)) :
  valid_names customer_id sort_column = true ->
  forallb (fun j => notna (r_aid (fst j))) L = true ->
  tools.map_xcid (intra_frame customer_id sort_column L) customer_id
  = Ok (map (fun c => (c, average_precision (labels_of c L)))
            (customers L)).
Proof.
  intros V Haid. unfold tools.map_xcid, groupby_col, intra_frame.
  rewrite labelled_frame_keys. cbn [bind].
  pose proof V as V'. use_valid_names V'.
  unfold labelled_frame, getitem. cbn [app]. frame.
  unfold agg, groupby. cbn [gb_groups].
  apply traverse_map_Ok. intros c Hc. cbn [fst snd].
  fold (keys_of L). rewrite (intra_column_group L c Haid Hc).
  rewrite numeric_Num. cbn [bind]. rewrite mean_Some. reflexivity.
Qed.

(** ** The summary row *)

Lemma get_metrics_Ok_inv (cos : list Qc -> list Qc -> Qc) (name : string)
  (recommendations true_labels : DataFrame) (articles_df : FeatureFrame)
  (sort_column : string) (k : Z) (customer_id : string) (s : Summary) :
  get_metrics cos name recommendations true_labels articles_df sort_column
              k customer_id = Ok s ->
  exists cov P Rc M D,
    run cos recommendations true_labels articles_df sort_column customer_id
        cov P Rc M D
    /\ s = {| index := [name]; columns := summary_columns k;
              data := [summary_row cov P Rc M D];
              index_names := [EmptyString];
              column_names := [EmptyString; EmptyString] |}.
Proof.
  unfold get_metrics. intros H.
  repeat match type of H with
    | bind ?m _ = Ok _ =>
        let a := fresh "a" in
        let E := fresh "E" in
        apply bind_Ok_inv in H; destruct H as (a & E & H)
    end.
  injection H as <-.
  exists a0, a2, a3, a5, a8. split; [econstructor; eassumption|].
  reflexivity.
Qed.

Lemma get_metrics_of_run (cos : list Qc -> list Qc -> Qc) (name : string)
  (recommendations true_labels : DataFrame) (articles_df : FeatureFrame)
  (sort_column : string) (k : Z) (customer_id : string)
  (cov : Qc) (P Rc M D : Series) :
  run cos recommendations true_labels articles_df sort_column customer_id
      cov P Rc M D ->
  get_metrics cos name recommendations true_labels articles_df sort_column
              k customer_id
  = Ok {| index := [name]; columns := summary_columns k;
          data := [summary_row cov P Rc M D];
          index_names := [EmptyString];
          column_names := [EmptyString; EmptyString] |}.
Proof.
  intros [mf ff itf sm pr H1 H2 H3 H4 H5 H6 H7 H8 H9 H10].
  unfold get_metrics.
  rewrite H1; cbn [bind]. rewrite H2; cbn [bind]. rewrite H3; cbn [bind].
  rewrite H4; cbn [bind]. rewrite H5; cbn [bind]. rewrite H6; cbn [bind].
  rewrite H7; cbn [bind]. rewrite H8; cbn [bind]. rewrite H9; cbn [bind].
  rewrite H10; cbn [bind]. reflexivity.
Qed.

(** The typed run: with the tables of the specification the first blocks
    compute the series of the specification. *)
Lemma run_typed (cos : list Qc -> list Qc -> Qc)
  (R : list Recommendation) (T : list TrueLabel) (articles_df : FeatureFrame)
  (sort_column customer_id : string) (cov : Qc) (P Rc M D : Series) :
  valid_names customer_id sort_column = true ->
  run cos (recommendations_frame customer_id sort_column R)
      (true_labels_frame customer_id T) articles_df sort_column customer_id
      cov P Rc M D ->
  P = precision_xcid R T /\ Rc = recall_xcid R T
  /\ (forallb (fun r => notna (r_aid r)) R = true -> M = ap_xcid R T).
Proof.
  intros V [mf ff itf sm pr H1 H2 H3 H4 H5 H6 H7 H8 H9 H10].
  rewrite (merged_typed _ _ _ _ V) in H1. injection H1 as <-.
  rewrite (fill_interested_typed _ _ _ V) in H3. injection H3 as <-.
  fold (labelled R T) in *.
  rewrite (prec_xcid_typed _ _ _ V) in H4. injection H4 as <-.
  rewrite (rec_xcid_typed _ _ _ V) in H5. injection H5 as <-.
  rewrite (intra_map_typed _ _ _ V) in H6. injection H6 as <-.
  fold (ranked R T) in *.
  repeat split. intros Haid.
  rewrite (map_xcid_typed _ _ _ V) in H7; [now injection H7 as <-|].
  rewrite forallb_forall in *. intros j Hj.
  unfold ranked in Hj. apply isort_In in Hj. unfold labelled in Hj.
  apply in_map_iff in Hj. destruct Hj as [j' [<- Hj']]. cbn [fst].
  apply Haid. unfold left_join in Hj'. apply in_flat_map in Hj'.
  destruct Hj' as [r [Hr Hj']].
  destruct (filter (matches r) T) as [|t ts].
  - destruct Hj' as [<-|[]]. exact Hr.
  - apply in_map_iff in Hj'. destruct Hj' as [t' [<- _]]. exact Hr.
Qed.

(** ** The customers *)

Lemma left_join_fst (R : list Recommendation) (T : list TrueLabel)
  (r : Recommendation) :
  In r (map fst (left_join R T)) <-> In r R.
Proof.
  unfold left_join. rewrite in_map_iff. split.
  - intros [j [<- Hj]]. apply in_flat_map in Hj. destruct Hj as [r' [Hr Hj]].
    destruct (filter (matches r') T) as [|t ts].
    + destruct Hj as [<-|[]]. exact Hr.
    + apply in_map_iff in Hj. destruct Hj as [t' [<- _]]. exact Hr.
  - intros Hr. destruct (filter (matches r) T) as [|t ts] eqn:E.
    + exists (r, None). split; [reflexivity|]. apply in_flat_map.
      exists r. split; [assumption|]. rewrite E. now left.
    + exists (r, Some t). split; [reflexivity|]. apply in_flat_map.
      exists r. split; [assumption|]. rewrite E. now left.
Qed.

(** The customers of the joined rows, sorted or not, are the customers of
    the recommendations, each once. *)
Lemma customers_labelled (R : list Recommendation) (T : list TrueLabel)
  (c : cell) :
  In c (customers (labelled R T))
  <-> c <> NaN /\ exists r, In r R /\ r_cid r = c.
Proof.
  unfold customers. rewrite group_keys_In, in_map_iff. split.
  - intros [[j [<- Hj]] Hc]. split; [assumption|].
    exists (fst j). split; [|reflexivity].
    apply (left_join_fst R T). unfold labelled in Hj.
    apply in_map_iff in Hj. destruct Hj as [j' [<- Hj']]. cbn [fst].
    now apply in_map.
  - intros [Hc [r [Hr <-]]]. split; [|assumption].
    apply (left_join_fst R T) in Hr. apply in_map_iff in Hr.
    destruct Hr as [j [<- Hj]]. exists (fst j, label j). split; [reflexivity|].
    unfold labelled. apply in_map_iff. now exists j.
Qed.

Lemma customers_ranked (R : list Recommendation) (T : list TrueLabel)
  (c : cell) :
  In c (customers (ranked R T)) <-> In c (customers (labelled R T)).
Proof.
  unfold customers. rewrite !group_keys_In, !in_map_iff.
  unfold ranked. split; intros [[j [E Hj]] Hc]; (split; [|assumption]);
    exists j; (split; [assumption|]); now apply isort_In in Hj || apply isort_In.
Qed.

Lemma customers_NoDup (L : list (Recommendation * Qc)) :
  NoDup (customers L).
Proof. apply group_keys_NoDup. Qed.


Lemma labels_of_nonempty (L : list (Recommendation * Qc)) (c : cell) :
  In c (customers L) -> labels_of c L <> [].
Proof.
  unfold customers. rewrite group_keys_In, in_map_iff.
  intros [[j [<- Hj]] _] E. unfold labels_of in E.
  apply map_eq_nil in E.
  assert (Hin : In j (filter (fun j0 => cell_eqb (r_cid (fst j0))
                                          (r_cid (fst j))) L)).
  { apply filter_In. split; [assumption | apply cell_eqb_refl]. }
  rewrite E in Hin. exact Hin.
Qed.


(** ** The per-customer series *)

Lemma ranked_article_ids (R : list Recommendation) (T : list TrueLabel) :
  forallb (fun r => notna (r_aid r)) R = true ->
  forallb (fun j => notna (r_aid (fst j))) (ranked R T) = true.
Proof.
  intros Haid. rewrite forallb_forall in *. intros j Hj.
  unfold ranked in Hj. apply isort_In in Hj. apply Haid.
  apply (left_join_fst R T). unfold labelled in Hj.
  apply in_map_iff in Hj. destruct Hj as [j' [<- Hj']]. cbn [fst].
  now apply in_map.
Qed.

Lemma precision_series_typed (customer_id sort_column : string)
  (R : list Recommendation) (T : list TrueLabel) :
  valid_names customer_id sort_column = true ->
  precision_series (recommendations_frame customer_id sort_column R)
                   (true_labels_frame customer_id T) customer_id
  = Ok (precision_xcid R T).
Proof.
  intros V. unfold precision_series.
  rewrite (merged_typed _ _ _ _ V). cbn [bind].
  rewrite (fill_interested_typed _ _ _ V). cbn [bind].
  apply (prec_xcid_typed _ _ _ V).
Qed.

Lemma recall_series_typed (customer_id sort_column : string)
  (R : list Recommendation) (T : list TrueLabel) :
  valid_names customer_id sort_column = true ->
  recall_series (recommendations_frame customer_id sort_column R)
                (true_labels_frame customer_id T) customer_id
  = Ok (recall_xcid R T).
Proof.
  intros V. unfold recall_series.
  rewrite (merged_typed _ _ _ _ V). cbn [bind].
  rewrite (fill_interested_typed _ _ _ V). cbn [bind].
  apply (rec_xcid_typed _ _ _ V).
Qed.

Lemma map_series_typed (customer_id sort_column : string)
  (R : list Recommendation) (T : list TrueLabel) :
  valid_names customer_id sort_column = true ->
  forallb (fun r => notna (r_aid r)) R = true ->
  map_series (recommendations_frame customer_id sort_column R)
             (true_labels_frame customer_id T) sort_column customer_id
  = Ok (ap_xcid R T).
Proof.
  intros V Haid. unfold map_series.
  rewrite (merged_typed _ _ _ _ V). cbn [bind].
  rewrite (fill_interested_typed _ _ _ V). cbn [bind].
  rewrite (intra_map_typed _ _ _ V). cbn [bind].
  apply (map_xcid_typed _ _ _ V). now apply ranked_article_ids.
Qed.

(** ** The order of the sorted rows *)





Section SortedOutput.

Context {A : Type} (le : A -> A -> bool).

Hypothesis le_total : forall x y, le x y = false -> le y x = true.



End SortedOutput.


(** On numeric customer ids and sort values the order is the
    lexicographic one, larger first. *)
Lemma goes_before_numbers (ra rb : Recommendation) (la lb ca cb sa sb : Qc) :
  r_cid ra = Num ca -> r_cid rb = Num cb ->
  r_sort ra = Num sa -> r_sort rb = Num sb ->
  goes_before (ra, la) (rb, lb) = true
  <-> (cb < ca)%Qc \/ (ca = cb /\ (sb <= sa)%Qc).
Proof.
  intros H1 H2 H3 H4. unfold goes_before, lex_leb. cbn [lex_cmp fst].
  rewrite H1, H2, H3, H4. unfold key_cmp, cell_ltb.
  destruct (cb ?= ca)%Qc eqn:Ec.
  - apply Qceq_alt in Ec. subst cb.
    assert (Err : (ca ?= ca)%Qc = Eq) by now apply Qceq_alt.
    rewrite Err.
    destruct (sb ?= sa)%Qc eqn:Es.
    + apply Qceq_alt in Es. subst sb.
      assert (Ess : (sa ?= sa)%Qc = Eq) by now apply Qceq_alt.
      rewrite Ess. split; [|reflexivity]. intros _. right.
      split; [reflexivity | apply Qcle_refl].
    + split; [|reflexivity]. intros _. right. split; [reflexivity|].
      apply Qclt_le_weak. now apply Qclt_alt.
    + apply Qcgt_alt in Es.
      assert (Hlt : (sa ?= sb)%Qc = Lt) by now apply Qclt_alt.
      rewrite Hlt. split; [discriminate|].
      intros [H|[_ H]]; exfalso.
      * now apply (Qclt_not_eq ca ca).
      * now apply (Qcle_not_lt sb sa).
  - split; [|reflexivity]. intros _. left. now apply Qclt_alt.
  - apply Qcgt_alt in Ec.
    assert (Hlt : (ca ?= cb)%Qc = Lt) by now apply Qclt_alt.
    rewrite Hlt. split; [discriminate|].
    intros [H|[H _]]; exfalso.
    + apply (Qclt_not_eq ca ca); [|reflexivity].
      now apply Qclt_trans with cb.
    + subst cb. now apply (Qclt_not_eq ca ca).
Qed.

Lemma worked_call_returns : worked_call = Ok worked_summary.
Proof. vm_compute. reflexivity. Qed.








(** ** The cutoff [k] *)



(** ** A table of labels without the column [interested] *)



(** ** The table of similarities *)

Lemma group_values_forallb (P : cell -> bool) (c : cell)
  (keys vals : list cell) :
  forallb P vals = true -> forallb P (group_values c keys vals) = true.
Proof.
  rewrite !forallb_forall. intros H x Hx. unfold group_values in Hx.
  apply in_map_iff in Hx. destruct Hx as [[k v] [<- Hkv]].
  apply filter_In in Hkv. destruct Hkv as [Hkv _].
  apply in_combine_r in Hkv. now apply H.
Qed.

Lemma is_numeric_intra_column (L : list (Recommendation * Qc)) :
  forallb is_numeric (intra_column L) = true.
Proof.
  unfold intra_column, cell_op. rewrite <- map_map.
  apply is_numeric_of_number.
Qed.

(** The MAP block returns, whatever the article ids are. *)
Lemma map_xcid_returns (customer_id sort_column : string)
  (L : list (Recommendation * Qc)) :
  valid_names customer_id sort_column = true ->
  exists M, tools.map_xcid (intra_frame customer_id sort_column L)
                           customer_id = Ok M.
Proof.
  intros V. unfold tools.map_xcid, groupby_col, intra_frame.
  rewrite labelled_frame_keys. cbn [bind].
  use_valid_names V.
  unfold labelled_frame, getitem. cbn [app]. frame.
  unfold agg, groupby. cbn [gb_groups]. eexists.
  apply (traverse_map_Ok _ _
           (fun k => (k, mean (map number_of
                                   (group_values k (keys_of L)
                                                 (intra_column L)))))).
  intros c _. cbn [fst snd]. rewrite numeric_Ok; [reflexivity|].
  apply group_values_forallb, is_numeric_intra_column.
Qed.

Lemma loc_mask_length (df : FeatureFrame) (f : cell -> bool) :
  length (ff_values df) = length (ff_index df) ->
  length (ff_values (loc_mask df (map f (ff_index df))))
  = length (filter f (ff_index df)).
Proof.
  destruct df as [idx vals]. unfold loc_mask. cbn [ff_index ff_values].
  rewrite length_map. revert vals.
  induction idx as [|i idx IH]; intros [|v vals] H; try discriminate;
    [reflexivity|].
  injection H as H. cbn [map combine filter snd].
  destruct (f i); cbn [length]; now rewrite IH.
Qed.

Lemma cosine_similarity_rows (cos : list Qc -> list Qc -> Qc)
  (X m : list (list Qc)) :
  sklearn.cosine_similarity cos X = Ok m -> length m = length X.
Proof.
  unfold sklearn.cosine_similarity. destruct X as [|x0 X]; [discriminate|].
  destruct (length x0 =? 0); [discriminate|].
  intros H. injection H as <-. cbn [map length]. now rewrite length_map.
Qed.

Lemma cosine_similarity_raises (cos : list Qc -> list Qc -> Qc)
  (X : list (list Qc)) (e : exn) :
  sklearn.cosine_similarity cos X = Raise e -> e = ValueError.
Proof.
  unfold sklearn.cosine_similarity. destruct X as [|x0 X]; [congruence|].
  destruct (length x0 =? 0); congruence.
Qed.

(** An article that is recommended but not in the items table leaves
    fewer rows in the similarity matrix than there are labels for it. *)
Lemma fewer_items_than_labels (index U : list cell) (a : cell) :
  NoDup index -> In a U -> ~ In a index ->
  length (filter (fun i => isin i U) index) < length U.
Proof.
  intros ND Ha Hna.
  apply Nat.le_lt_trans with (length (remove cell_eq_dec a U)).
  - apply NoDup_incl_length; [now apply NoDup_filter|].
    intros x Hx. apply filter_In in Hx. destruct Hx as [Hx HU].
    apply in_in_remove; [congruence | now apply isin_In].
  - now apply remove_length_lt.
Qed.

Lemma sims_df_shape_mismatch (cos : list Qc -> list Qc -> Qc)
  (customer_id sort_column : string) (L : list (Recommendation * Qc))
  (articles_df : FeatureFrame) :
  valid_names customer_id sort_column = true ->
  length (ff_values articles_df) = length (ff_index articles_df) ->
  length (filter (fun i => isin i (unique (map (fun j => r_aid (fst j)) L)))
                 (ff_index articles_df))
  <> length (unique (map (fun j => r_aid (fst j)) L)) ->
  sims_df cos (intra_frame customer_id sort_column L) articles_df
  = Raise ValueError.
Proof.
  intros V Hwf Hne. unfold sims_df, intra_frame.
  pose proof V as V'. use_valid_names V'.
  unfold labelled_frame, getitem. cbn [app]. frame.
  set (U := unique (map (fun j => r_aid (fst j)) L)) in *.
  destruct (sklearn.cosine_similarity cos _) as [m|e] eqn:E.
  - cbn [bind]. apply cosine_similarity_rows in E.
    rewrite (loc_mask_length articles_df (fun i => isin i U) Hwf) in E.
    unfold DataFrame_of_array.
    destruct (Nat.eqb_spec (length m) (length U)) as [E'|_];
      [congruence | reflexivity].
  - cbn [bind]. now rewrite (cosine_similarity_raises _ _ _ E).
Qed.

(** C6 on the code.  When the labels of the items table are distinct and
    an article of the recommendations is not among them, the call raises a
    [ValueError] instead of returning a summary: line 123 does leave the
    unknown article out of the similarity matrix, which has one row per
    recommended article found in the items table, but the labels put on the
    matrix on lines 125-129 are all the recommended articles, one too many
    for its shape. *)
Theorem unknown_article_raises (cos : list Qc -> list Qc -> Qc)
  (name : string) (R : list Recommendation) (T : list TrueLabel)
  (articles_df : FeatureFrame) (sort_column : string) (k : Z)
  (customer_id : string) :
  valid_names customer_id sort_column = true ->
  nunique (ff_index articles_df) <> 0%Z ->
  length (ff_values articles_df) = length (ff_index articles_df) ->
  NoDup (ff_index articles_df) ->
  (exists r, In r R /\ ~ In (r_aid r) (ff_index articles_df)) ->
  get_metrics cos name (recommendations_frame customer_id sort_column R)
              (true_labels_frame customer_id T) articles_df sort_column k
              customer_id
  = Raise ValueError.
Proof.
  intros V Hidx Hwf ND [r [Hr Hna]]. unfold get_metrics.
  rewrite (merged_typed _ _ _ _ V). cbn [bind].
  assert (Hcov : exists cov,
             cat_cov (recommendations_frame customer_id sort_column R)
                     articles_df = Ok cov).
  { unfold cat_cov, recommendations_frame, getitem.
    pose proof V as V'. use_valid_names V'. frame. unfold truediv.
    destruct (Z.eqb_spec (nunique (ff_index articles_df)) 0);
      [congruence | eauto]. }
  destruct Hcov as [cov ->]. cbn [bind].
  rewrite (fill_interested_typed _ _ _ V). cbn [bind].
  rewrite (prec_xcid_typed _ _ _ V). cbn [bind].
  rewrite (rec_xcid_typed _ _ _ V). cbn [bind].
  rewrite (intra_map_typed _ _ _ V). cbn [bind].
  destruct (map_xcid_returns customer_id sort_column
              (isort goes_before
                     (map (fun j => (fst j, label j)) (left_join R T))) V)
    as [M ->].
  cbn [bind]. rewrite sims_df_shape_mismatch; try assumption; [reflexivity|].
  apply Nat.lt_neq. apply (fewer_items_than_labels _ _ (r_aid r));
    try assumption.
  apply unique_In, in_map_iff.
  apply (left_join_fst R T) in Hr. apply in_map_iff in Hr.
  destruct Hr as [j [<- Hj]]. exists (fst j, label j). split; [reflexivity|].
  apply isort_In. apply in_map_iff. now exists j.
Qed.

Lemma unknown_article_raises_witness :
  valid_names "cid" "rank" = true
  /\ nunique (ff_index short_items) <> 0%Z
  /\ length (ff_values short_items) = length (ff_index short_items)
  /\ NoDup (ff_index short_items)
  /\ (exists r, In r worked_R /\ ~ In (r_aid r) (ff_index short_items))
  /\ get_metrics dot "engine" (recommendations_frame "cid" "rank" worked_R)
                 (true_labels_frame "cid" worked_T) short_items "rank" 5
                 "cid"
     = Raise ValueError.
Proof.
  assert (H1 : nunique (ff_index short_items) <> 0%Z) by discriminate.
  assert (H2 : NoDup (ff_index short_items)).
  { repeat constructor. simpl. tauto. }
  assert (H3 : exists r, In r worked_R
                         /\ ~ In (r_aid r) (ff_index short_items)).
  { exists {| r_cid := num 1; r_aid := Str "A02"; r_sort := num 2 |}.
    split; [right; left; reflexivity|].
    simpl. intros [E|[]]. discriminate. }
  split; [reflexivity|]. split; [exact H1|]. split; [reflexivity|].
  split; [exact H2|]. split; [exact H3|].
  exact (unknown_article_raises dot "engine" worked_R worked_T short_items
           "rank" 5 "cid" eq_refl H1 eq_refl H2 H3).
Defined.

(** C6 on the code, the worked example with an items table that lacks
    A02: the call returns no summary row. *)
Lemma unknown_article_no_summary :
  In (Str "A02") (map r_aid worked_R)
  /\ ~ In (Str "A02") (ff_index short_items)
  /\ ~ (exists s,
          get_metrics dot "engine"
            (recommendations_frame "cid" "rank" worked_R)
            (true_labels_frame "cid" worked_T) short_items "rank" 5 "cid"
          = Ok s).
Proof.
  split; [right; left; reflexivity|]. split.
  - simpl. intros [E|[]]. discriminate.
  - intros [s H]. vm_compute in H. discriminate.
Qed.

(** C4 on the code.  Customer 2 is recommended A03 and A01, which have
    the same feature vector, so that the diversity of the specification is
    0 for it and 1 for customer 1, 1/2 on average; [get_metrics] computes 1
    for both and reports the mean 1.  The rows of the similarity matrix
    follow the order of the items table (A01, A02, A03) and the labels put
    on it follow the order of the sorted recommendations (A03, A01, A02):
    the similarity read for the pair (A03, A01) is that of A01 and A02. *)
Lemma diversity_labels_shifted :
  twin_diversity = Ok [(num 1, Some (Q2Qc 1)); (num 2, Some (Q2Qc 1))]
  /\ (exists s row, twin_call = Ok s /\ data s = [row]
                    /\ nth_error (map shown row) 7 = Some (Some 1%Q))
  /\ features twin_items (Str "A03") = features twin_items (Str "A01")
  /\ diversity dot twin_items [Str "A03"; Str "A01"] = Some (Q2Qc 0)
  /\ diversity dot twin_items [Str "A01"; Str "A02"] = Some (Q2Qc 1).
Proof.
  split; [vm_compute; repeat f_equal; apply Qc_is_canon; reflexivity|].
  split.
  - destruct twin_call as [s|e] eqn:E; [|vm_compute in E; discriminate].
    exists s. destruct (data s) as [|row [|row' rest]] eqn:Ed;
      try (vm_compute in E; injection E as <-; discriminate).
    exists row. split; [reflexivity|]. split; [reflexivity|].
    vm_compute in E. injection E as <-. injection Ed as <-. reflexivity.
  - repeat split; vm_compute; repeat f_equal;
      try (apply Qc_is_canon; reflexivity).
Qed.

(** C4 on the code, a customer with one recommendation: its row of [combs]
    is NaN, which [zip] cannot iterate. *)
Lemma diversity_single_item_raises :
  get_metrics dot "engine" (recommendations_frame "cid" "rank" single_R)
              (true_labels_frame "cid" worked_T) worked_items "rank" 5 "cid"
  = Raise TypeError.
Proof. vm_compute. reflexivity. Qed.

(** ** Rounding *)

Lemma this_Qc_of_Z (z : Z) : (this (Qc_of_Z z) == inject_Z z)%Q.
Proof. unfold Qc_of_Z. cbn [this Q2Qc]. apply Qred_correct. Qed.

Lemma this_minus (a b : Qc) : (this (a - b)%Qc == this a - this b)%Q.
Proof.
  unfold Qcminus, Qcplus, Qcopp. cbn [this Q2Qc].
  rewrite !Qred_correct. reflexivity.
Qed.

Lemma this_mult (a b : Qc) : (this (a * b)%Qc == this a * this b)%Q.
Proof. unfold Qcmult. cbn [this Q2Qc]. apply Qred_correct. Qed.

(** The nearest integer is within one half. *)
Lemma round_half_even_near (y : Qc) :
  (this (Qc_of_Z (round_half_even y) - y)%Qc <= 1 # 2)%Q
  /\ (this (y - Qc_of_Z (round_half_even y))%Qc <= 1 # 2)%Q.
Proof.
  unfold round_half_even.
  pose proof (Qfloor_le y) as Hlo. pose proof (Qlt_floor y) as Hhi.
  set (f := Qfloor y) in *.
  rewrite inject_Z_plus in Hhi.
  assert (Hc : ((y - Qc_of_Z f) ?= Q2Qc (1 # 2))%Qc
               = (this y - inject_Z f ?= 1 # 2)%Q).
  { unfold Qccompare. apply Qcompare_comp.
    - rewrite this_minus, this_Qc_of_Z. reflexivity.
    - reflexivity. }
  rewrite Hc. clear Hc.
  change (inject_Z 1) with 1%Q in Hhi.
  destruct (this y - inject_Z f ?= 1 # 2)%Q eqn:E.
  - apply Qeq_alt in E.
    destruct (Z.even f); rewrite !this_minus, !this_Qc_of_Z;
      try rewrite inject_Z_plus; change (inject_Z 1) with 1%Q;
      split; lra.
  - apply Qlt_alt in E. rewrite !this_minus, !this_Qc_of_Z. split; lra.
  - apply Qgt_alt in E. rewrite !this_minus, !this_Qc_of_Z, inject_Z_plus.
    change (inject_Z 1) with 1%Q. split; lra.
Qed.


(** ** Catalog coverage *)

(** [distinct] counts the values that are not missing, each once. *)
Lemma distinct_count (l U : list cell) :
  NoDup U -> (forall c, In c U <-> In c l /\ c <> NaN) ->
  distinct l = length U.
Proof.
  intros ND HU. unfold distinct. apply Permutation_length.
  apply NoDup_Permutation; [apply unique_NoDup | assumption|].
  intros c. rewrite unique_In, filter_In, HU.
  destruct c; simpl; intuition congruence.
Qed.



(** ** The worked example *)

(** C7 as the specification has it does not hold.  With the labels as the
    pair (1, A01) alone the call raises; with the label column added, the
    average precision of customer 1 is not 1/2. *)
Lemma worked_example_counterexample :
  get_metrics dot "engine" (recommendations_frame "cid" "rank" worked_R)
              [("cid", [num 1]); ("article_id", [Str "A01"])]
              worked_items "rank" 5 "cid"
  = Raise (KeyError "interested")
  /\ exists v, worked_map_xcid = Ok [(num 1, Some v)] /\ v <> Q2Qc (1 # 2).
Proof.
  split; [reflexivity|].
  exists (Q2Qc (1 # 4)). split; [|discriminate].
  vm_compute. repeat f_equal; apply Qc_is_canon; reflexivity.
Qed.

(** C7, as the code has it.  On the worked example, the labels carrying
    the column [interested] with the value 1, the precision of customer 1
    is 1/2 and its average precision is 1/4: sorted by rank descending the
    rows are A02 (rank 2, no hit, 0) and A01 (rank 1, hit, running precision
    1/2).  The summary reports 1/2 and 1/4 as the means, and no deviation
    for a single customer.  With the larger sort value on A01 the hit is
    first and the average precision is 1/2. *)
Theorem worked_example_values :
  worked_prec_xcid = Ok [(num 1, Some (Q2Qc (1 # 2)))]
  /\ worked_map_xcid = Ok [(num 1, Some (Q2Qc (1 # 4)))]
  /\ map r_aid (map fst (ranked worked_R worked_T)) = [Str "A02"; Str "A01"]
  /\ worked_call = Ok worked_summary
  /\ map (map shown) (data worked_summary)
     = [[Some 100%Q; Some (1 # 2)%Q; None; Some (1 # 10)%Q; None;
         Some (1 # 4)%Q; None; Some 1%Q; None]]
  /\ hit_first_map_xcid = Ok [(num 1, Some (Q2Qc (1 # 2)))].
Proof.
  split; [vm_compute; repeat f_equal; apply Qc_is_canon; reflexivity|].
  split; [vm_compute; repeat f_equal; apply Qc_is_canon; reflexivity|].
  split; [reflexivity|].
  split; [exact worked_call_returns|].
  split; [reflexivity|].
  vm_compute; repeat f_equal; apply Qc_is_canon; reflexivity.
Qed.

(** ** Images *)



Lemma slice_to_length (n : nat) (s : string) :
  String.length (slice_to n s) = Nat.min n (String.length s).
Proof.
  revert s. induction n as [|n IH]; intros [|c s]; simpl;
    try reflexivity. now rewrite IH.
Qed.




(** * Further properties of [get_metrics] *)

(** ** The diversity block: shapes and exceptions *)


Lemma take_opt_numeric (idx : list (option nat)) (col : list cell) :
  forallb is_numeric col = true ->
  forallb is_numeric (take_opt idx col) = true.
Proof.
  intros H. rewrite forallb_forall in *. intros c Hc.
  unfold take_opt in Hc. apply in_map_iff in Hc.
  destruct Hc as [[j|] [<- _]]; [|reflexivity].
  destruct (Nat.lt_ge_cases j (length col)) as [Hlt|Hge].
  - apply H. now apply nth_In.
  - now rewrite nth_overflow.
Qed.

(** The table of similarities, when it is built, has the three columns
    named on line 131 and floats as scores. *)
Lemma sims_df_shape (cos : list Qc -> list Qc -> Qc) (recs : DataFrame)
  (articles_df : FeatureFrame) (sims : DataFrame) :
  sims_df cos recs articles_df = Ok sims ->
  exists a b c,
    sims = [("aid_01", a); ("aid_02", b); ("score", c)]
    /\ forallb is_numeric c = true.
Proof.
  unfold sims_df. intros H.
  apply bind_Ok_inv in H. destruct H as (aid & _ & H).
  apply bind_Ok_inv in H. destruct H as (m & _ & H).
  apply bind_Ok_inv in H. destruct H as (mat & _ & H).
  unfold set_columns, unstack_reset_index in H. cbn in H.
  injection H as <-. do 3 eexists. split; [reflexivity|].
  rewrite forallb_forall. intros c Hc. apply in_map_iff in Hc.
  destruct Hc as [p [<- _]]. reflexivity.
Qed.

Lemma sims_df_raises (cos : list Qc -> list Qc -> Qc) (recs : DataFrame)
  (articles_df : FeatureFrame) (e : exn) :
  getcol "article_id" recs <> None ->
  sims_df cos recs articles_df = Raise e -> e = ValueError.
Proof.
  unfold sims_df, getitem. intros Hcol.
  destruct (getcol "article_id" recs) as [aid|]; [|congruence].
  cbn [bind].
  destruct (sklearn.cosine_similarity cos _) as [m|e'] eqn:E; cbn [bind].
  - unfold DataFrame_of_array.
    destruct (_ && _); cbn [bind]; [discriminate | congruence].
  - intros H. injection H as <-.
    now apply (cosine_similarity_raises _ _ _ E).
Qed.

(** The groups of article ids of the sorted rows. *)
Lemma groupby_article_id (customer_id sort_column : string)
  (L : list (Recommendation * Qc)) :
  valid_names customer_id sort_column = true ->
  groupby_col (intra_frame customer_id sort_column L) customer_id
              "article_id"
  = Ok {| gb_keys := keys_of L;
          gb_groups := map (fun k => (k, aids_of k L)) (customers L) |}.
Proof.
  intros V. unfold groupby_col, intra_frame.
  rewrite labelled_frame_keys. cbn [bind].
  use_valid_names V. unfold labelled_frame, getitem. cbn [app]. frame.
  unfold groupby, customers. do 2 f_equal. apply map_ext. intros k.
  unfold keys_of. now rewrite group_values_map.
Qed.

Lemma pairs_frame_typed (customer_id sort_column : string)
  (L : list (Recommendation * Qc)) :
  valid_names customer_id sort_column = true ->
  pairs_frame (intra_frame customer_id sort_column L) customer_id
  = (z <- zip_star (map snd (exploded_pairs L)) ;;
     ab <- unpack2 z ;;
     Ok [ (customer_id, map fst (exploded_pairs L));
          ("aid_01", fst ab); ("aid_02", snd ab) ]).
Proof.
  intros V. unfold pairs_frame.
  rewrite (groupby_article_id _ _ _ V). cbn [bind gb_groups].
  rewrite map_map. cbn [fst snd]. fold (exploded_pairs L).
  destruct (zip_star _) as [z|e]; cbn [bind]; [|reflexivity].
  destruct (unpack2 z) as [ab|e]; cbn [bind]; [|reflexivity].
  use_valid_names V. frame. reflexivity.
Qed.

Lemma pairs_frame_raises (customer_id sort_column : string)
  (L : list (Recommendation * Qc)) (e : exn) :
  valid_names customer_id sort_column = true ->
  pairs_frame (intra_frame customer_id sort_column L) customer_id = Raise e ->
  e = TypeError \/ e = ValueError.
Proof.
  intros V. rewrite (pairs_frame_typed _ _ _ V). unfold zip_star.
  destruct (traverse _ (map snd (exploded_pairs L))) as [pairs|e'] eqn:E;
    cbn [bind].
  - destruct pairs as [|p pairs]; cbn [bind unpack2];
      [intros H; injection H as <-; now right | discriminate].
  - intros H. injection H as <-. left.
    clear - E. induction (map snd (exploded_pairs L)) as [|[p|] t IH];
      cbn [traverse bind] in E; try congruence.
    destruct (traverse _ t); cbn [bind] in E; [discriminate|].
    apply IH. congruence.
Qed.

(** Lines 139-142 return for every table of pairs and every table of
    similarities of these shapes. *)
Lemma diversity_x_cid_returns (customer_id sort_column : string)
  (ks a b a' b' c : list cell) :
  valid_names customer_id sort_column = true ->
  forallb is_numeric c = true ->
  exists D,
    diversity_x_cid [(customer_id, ks); ("aid_01", a); ("aid_02", b)]
                    [("aid_01", a'); ("aid_02", b'); ("score", c)]
                    customer_id
    = Ok D.
Proof.
  intros V Hc. use_valid_names V.
  unfold diversity_x_cid, merge. cbn [merge_keys]. unfold getitem, mem.
  frame. unfold groupby_col, getitem. cbn [app]. frame.
  unfold agg, groupby. cbn [gb_groups].
  set (keys := take _ ks). set (vals := take_opt _ c).
  rewrite (traverse_map_Ok _ _
             (fun k => (k, mean (map number_of
                                     (group_values k keys vals))))).
  - cbn [bind]. eauto.
  - intros k _. cbn [fst snd]. rewrite numeric_Ok; [reflexivity|].
    apply group_values_forallb. now apply take_opt_numeric.
Qed.

(** ** The steps of a call on the tables of the specification *)

Lemma cat_cov_typed (customer_id sort_column : string)
  (R : list Recommendation) (articles_df : FeatureFrame) :
  valid_names customer_id sort_column = true ->
  cat_cov (recommendations_frame customer_id sort_column R) articles_df
  = truediv (nunique (map r_aid R)) (nunique (ff_index articles_df)).
Proof.
  intros V. use_valid_names V.
  unfold cat_cov, recommendations_frame, getitem. frame. reflexivity.
Qed.

(** With valid column names only the coverage and the diversity block can
    raise. *)
Lemma get_metrics_typed (cos : list Qc -> list Qc -> Qc) (name : string)
  (R : list Recommendation) (T : list TrueLabel) (articles_df : FeatureFrame)
  (sort_column : string) (k : Z) (customer_id : string) :
  valid_names customer_id sort_column = true ->
  exists M,
    get_metrics cos name (recommendations_frame customer_id sort_column R)
                (true_labels_frame customer_id T) articles_df sort_column k
                customer_id
    = (cov <- truediv (nunique (map r_aid R))
                      (nunique (ff_index articles_df)) ;;
       sims <- sims_df cos (intra_frame customer_id sort_column
                                        (ranked R T)) articles_df ;;
       pairs <- pairs_frame (intra_frame customer_id sort_column
                                         (ranked R T)) customer_id ;;
       D <- diversity_x_cid pairs sims customer_id ;;
       Ok {| index := [name]; columns := summary_columns k;
             data := [summary_row cov (precision_xcid R T)
                                  (recall_xcid R T) M D];
             index_names := [EmptyString];
             column_names := [EmptyString; EmptyString] |}).
Proof.
  intros V.
  destruct (map_xcid_returns customer_id sort_column (ranked R T) V)
    as [M HM].
  exists M. unfold get_metrics.
  rewrite (merged_typed _ _ _ _ V). cbn [bind].
  rewrite (cat_cov_typed _ _ _ _ V).
  destruct (truediv _ _) as [cov|e]; cbn [bind]; [|reflexivity].
  rewrite (fill_interested_typed _ _ _ V). cbn [bind].
  rewrite (prec_xcid_typed _ _ _ V). cbn [bind].
  rewrite (rec_xcid_typed _ _ _ V). cbn [bind].
  rewrite (intra_map_typed _ _ _ V). cbn [bind].
  fold (labelled R T). fold (ranked R T). rewrite HM. cbn [bind].
  destruct (sims_df _ _ _) as [sims|e]; cbn [bind]; [|reflexivity].
  destruct (pairs_frame _ _) as [pairs|e]; cbn [bind]; [|reflexivity].
  destruct (diversity_x_cid _ _ _) as [D|e]; cbn [bind]; reflexivity.
Qed.

Lemma intra_frame_article_id (customer_id sort_column : string)
  (L : list (Recommendation * Qc)) :
  valid_names customer_id sort_column = true ->
  getcol "article_id" (intra_frame customer_id sort_column L)
  = Some (map (fun j => r_aid (fst j)) L).
Proof.
  intros V. use_valid_names V. unfold intra_frame, labelled_frame.
  cbn [app]. frame. reflexivity.
Qed.

(** ** Rows per customer *)









(** Without a customer there is no pair to unpack. *)
Lemma pairs_frame_no_customer (customer_id sort_column : string)
  (R : list Recommendation) (T : list TrueLabel) :
  valid_names customer_id sort_column = true ->
  customers (labelled R T) = [] ->
  pairs_frame (intra_frame customer_id sort_column (ranked R T)) customer_id
  = Raise ValueError.
Proof.
  intros V Hnone. rewrite (pairs_frame_typed _ _ _ V).
  assert (E : customers (ranked R T) = []).
  { destruct (customers (ranked R T)) as [|c cs] eqn:Ec; [reflexivity|].
    assert (Hin : In c (customers (labelled R T)))
      by (apply customers_ranked; rewrite Ec; now left).
    rewrite Hnone in Hin. destruct Hin. }
  unfold exploded_pairs. rewrite E. reflexivity.
Qed.

(** ** When the table of similarities is built *)





Lemma intra_frame_article_id_some (customer_id sort_column : string)
  (L : list (Recommendation * Qc)) :
  valid_names customer_id sort_column = true ->
  getcol "article_id" (intra_frame customer_id sort_column L) <> None.
Proof.
  intros V. rewrite (intra_frame_article_id _ _ _ V). discriminate.
Qed.

(** ** When [get_metrics] returns, and what it raises *)





Lemma worked_items_cover_single : items_cover worked_items single_R.
Proof.
  split; [reflexivity|]. split.
  { repeat constructor; simpl; intuition discriminate. }
  split; [discriminate|]. split.
  { repeat constructor; discriminate. }
  repeat constructor; simpl; tauto.
Qed.


(** X3. Without a customer (no recommendation, or only missing customer
    ids) and with an article in the items table, the call raises a
    [ValueError]: from [cosine_similarity] on an empty selection, from the
    labelling of the matrix, or from the unpacking of line 138. *)
Theorem no_customer_raises (cos : list Qc -> list Qc -> Qc)
  (name : string) (R : list Recommendation) (T : list TrueLabel)
  (articles_df : FeatureFrame) (sort_column : string) (k : Z)
  (customer_id : string) :
  valid_names customer_id sort_column = true ->
  nunique (ff_index articles_df) <> 0%Z ->
  customers (labelled R T) = [] ->
  get_metrics cos name (recommendations_frame customer_id sort_column R)
              (true_labels_frame customer_id T) articles_df sort_column k
              customer_id = Raise ValueError.
Proof.
  intros V Hidx Hnone.
  destruct (get_metrics_typed cos name R T articles_df sort_column k
              customer_id V) as [M ->].
  rewrite (pairs_frame_no_customer _ _ _ _ V Hnone). unfold truediv.
  destruct (Z.eqb_spec (nunique (ff_index articles_df)) 0) as [|_];
    [congruence|]. cbn [bind].
  destruct (sims_df _ _ _) as [sims|e] eqn:E; cbn [bind]; [reflexivity|].
  f_equal. apply (sims_df_raises _ _ _ _ (intra_frame_article_id_some customer_id sort_column (ranked R T) V) E).
Qed.

Lemma no_customer_raises_witness :
  valid_names "cid" "rank" = true
  /\ nunique (ff_index worked_items) <> 0%Z
  /\ customers (labelled [] worked_T) = []
  /\ get_metrics dot "engine" (recommendations_frame "cid" "rank" [])
                 (true_labels_frame "cid" worked_T) worked_items "rank" 5
                 "cid" = Raise ValueError.
Proof.
  assert (H1 : nunique (ff_index worked_items) <> 0%Z) by discriminate.
  split; [reflexivity|]. split; [exact H1|]. split; [reflexivity|].
  exact (no_customer_raises dot "engine" [] worked_T worked_items "rank" 5
           "cid" eq_refl H1 eq_refl).
Defined.



(** X5. With valid column names the call never raises a [KeyError] (nor
    a [FileNotFoundError]): it returns, or raises [ZeroDivisionError],
    [ValueError] or [TypeError]. *)
Theorem valid_names_exceptions (cos : list Qc -> list Qc -> Qc)
  (name : string) (R : list Recommendation) (T : list TrueLabel)
  (articles_df : FeatureFrame) (sort_column : string) (k : Z)
  (customer_id : string) :
  valid_names customer_id sort_column = true ->
  forall e,
    get_metrics cos name (recommendations_frame customer_id sort_column R)
                (true_labels_frame customer_id T) articles_df sort_column k
                customer_id = Raise e ->
    e = ZeroDivisionError \/ e = ValueError \/ e = TypeError.
Proof.
  intros V e.
  destruct (get_metrics_typed cos name R T articles_df sort_column k
              customer_id V) as [M ->].
  unfold truediv.
  destruct (nunique (ff_index articles_df) =? 0)%Z; cbn [bind];
    [intros H; injection H as <-; now left|].
  destruct (sims_df _ _ _) as [sims|e'] eqn:E; cbn [bind].
  - destruct (sims_df_shape _ _ _ _ E) as (a' & b' & c & -> & Hc).
    destruct (pairs_frame _ _) as [pairs|e'] eqn:Ep; cbn [bind].
    + rewrite (pairs_frame_typed _ _ _ V) in Ep.
      apply bind_Ok_inv in Ep. destruct Ep as (z & _ & Ep).
      apply bind_Ok_inv in Ep. destruct Ep as (ab & _ & Ep).
      injection Ep as <-.
      destruct (diversity_x_cid_returns customer_id sort_column
                  (map fst (exploded_pairs (ranked R T))) (fst ab) (snd ab)
                  a' b' c V Hc) as [D ->].
      cbn [bind]. discriminate.
    + intros H. injection H as <-.
      destruct (pairs_frame_raises _ _ _ _ V Ep) as [->| ->]; auto.
  - intros H. injection H as <-. right. left.
    apply (sims_df_raises _ _ _ _ (intra_frame_article_id_some customer_id sort_column (ranked R T) V) E).
Qed.

Lemma short_items_call_raises :
  get_metrics dot "engine" (recommendations_frame "cid" "rank" worked_R)
              (true_labels_frame "cid" worked_T) short_items "rank" 5 "cid"
  = Raise ValueError.
Proof. vm_compute. reflexivity. Qed.

Lemma valid_names_exceptions_witness :
  valid_names "cid" "rank" = true
  /\ get_metrics dot "engine" (recommendations_frame "cid" "rank" worked_R)
                 (true_labels_frame "cid" worked_T) short_items "rank" 5
                 "cid" = Raise ValueError
  /\ (ValueError = ZeroDivisionError \/ ValueError = ValueError
      \/ ValueError = TypeError).
Proof.
  split; [reflexivity|]. split; [exact short_items_call_raises|].
  exact (valid_names_exceptions dot "engine" worked_R worked_T short_items
           "rank" 5 "cid" eq_refl ValueError short_items_call_raises).
Defined.

(** ** The metrics of one customer *)

Lemma this_plus (a b : Qc) : (this (a + b)%Qc == this a + this b)%Q.
Proof. unfold Qcplus. cbn [this Q2Qc]. apply Qred_correct. Qed.

Lemma this_div (a b : Qc) : (this (a / b)%Qc == this a / this b)%Q.
Proof.
  unfold Qcdiv, Qcmult, Qcinv. cbn [this Q2Qc].
  rewrite !Qred_correct. reflexivity.
Qed.

Lemma this_Qc_of_nat_S (n : nat) :
  (this (Qc_of_nat (S n)) == this (Qc_of_nat n) + 1)%Q.
Proof.
  unfold Qc_of_nat. rewrite !this_Qc_of_Z, Nat2Z.inj_succ.
  unfold Z.succ. rewrite inject_Z_plus. reflexivity.
Qed.

Lemma Qc_of_nat_nonneg (n : nat) : (0 <= this (Qc_of_nat n))%Q.
Proof.
  unfold Qc_of_nat. rewrite this_Qc_of_Z.
  change 0%Q with (inject_Z 0). rewrite <- Zle_Qle. lia.
Qed.

Lemma Qc_of_nat_S_pos (n : nat) : (0 < this (Qc_of_nat (S n)))%Q.
Proof.
  rewrite this_Qc_of_nat_S. pose proof (Qc_of_nat_nonneg n). lra.
Qed.

Lemma Qc_of_nat_S_neq (n : nat) : Qc_of_nat (S n) <> 0%Qc.
Proof.
  intros H. pose proof (Qc_of_nat_S_pos n) as P. rewrite H in P.
  now apply Qlt_irrefl in P.
Qed.

Lemma Qc_of_nat_le (n m : nat) :
  n <= m -> (this (Qc_of_nat n) <= this (Qc_of_nat m))%Q.
Proof.
  intros H. unfold Qc_of_nat. rewrite !this_Qc_of_Z, <- Zle_Qle. lia.
Qed.

Lemma total_cons (q : Qc) (l : list Qc) :
  (this (total (q :: l)) == this q + this (total l))%Q.
Proof. cbn [total fold_right]. apply this_plus. Qed.

Lemma total_bounds (l : list Qc) :
  Forall unit_label l ->
  (0 <= this (total l))%Q
  /\ (this (total l) <= this (Qc_of_nat (length l)))%Q.
Proof.
  induction 1 as [|q l [Hq0 Hq1] _ [IH0 IH1]].
  - split; [apply Qle_refl|]. apply Qle_refl.
  - unfold Qcle in Hq0, Hq1.
    change (this 1%Qc) with 1%Q in Hq1. change (this 0%Qc) with 0%Q in Hq0.
    rewrite total_cons. cbn [length]. rewrite this_Qc_of_nat_S.
    split; lra.
Qed.

Lemma total_le_map {A : Type} (f g : A -> Qc) (s : list A) :
  (forall x, In x s -> (f x <= g x)%Qc) ->
  (this (total (map f s)) <= this (total (map g s)))%Q.
Proof.
  induction s as [|x s IH]; intros H; cbn [map].
  - apply Qle_refl.
  - rewrite !total_cons.
    pose proof (H x (or_introl eq_refl)) as Hx. unfold Qcle in Hx.
    assert (IH' := IH (fun y Hy => H y (or_intror Hy))). lra.
Qed.

Lemma total_perm (l l' : list Qc) :
  Permutation l l' -> total l = total l'.
Proof.
  unfold total.
  induction 1 as [|x l l' _ IH|x y l|l l' l'' _ IH1 _ IH2];
    cbn [fold_right].
  - reflexivity.
  - now rewrite IH.
  - ring.
  - now rewrite IH1.
Qed.

Lemma filter_perm {A : Type} (f : A -> bool) (l l' : list A) :
  Permutation l l' -> Permutation (filter f l) (filter f l').
Proof.
  induction 1 as [|x l l' _ IH|x y l|l l' l'' _ IH1 _ IH2]; cbn [filter].
  - constructor.
  - destruct (f x); [now constructor | assumption].
  - destruct (f x), (f y); try apply Permutation_refl. apply perm_swap.
  - now apply Permutation_trans with (filter f l').
Qed.

Lemma labels_of_ranked (R : list Recommendation) (T : list TrueLabel)
  (c : cell) :
  Permutation (labels_of c (labelled R T)) (labels_of c (ranked R T)).
Proof.
  unfold labels_of, ranked. apply Permutation_map, filter_perm, isort_perm.
Qed.

Lemma average_Some (l : list Qc) :
  l <> [] -> average l = Some (total l / Qc_of_nat (length l))%Qc.
Proof. destruct l; [congruence | reflexivity]. Qed.

(** The mean of labels between 0 and 1 lies between 0 and 1. *)
Lemma average_bounds (l : list Qc) :
  l <> [] -> Forall unit_label l ->
  exists q, average l = Some q /\ unit_label q.
Proof.
  intros Hne Hl. destruct l as [|x t]; [congruence|].
  cbn [average]. eexists. split; [reflexivity|].
  destruct (total_bounds _ Hl) as [H0 H1].
  pose proof (Qc_of_nat_S_pos (length t)) as Hn.
  cbn [length] in *. unfold unit_label, Qcle.
  change (this 0%Qc) with 0%Q. change (this 1%Qc) with 1%Q.
  rewrite this_div. split.
  - apply Qle_shift_div_l; [assumption | lra].
  - apply Qle_shift_div_r; [assumption | lra].
Qed.

Lemma label_unit (R : list Recommendation) (T : list TrueLabel) :
  unit_labels T ->
  forall j, In j (left_join R T) -> unit_label (label j).
Proof.
  intros HT j Hj.
  assert (H0 : unit_label 0%Qc) by (split; [apply Qcle_refl | discriminate]).
  unfold left_join in Hj. apply in_flat_map in Hj.
  destruct Hj as (r & _ & Hj).
  destruct (filter (matches r) T) as [|t ms] eqn:E.
  - destruct Hj as [<-|[]]. exact H0.
  - apply in_map_iff in Hj. destruct Hj as (t' & <- & Ht').
    rewrite <- E in Ht'. apply filter_In in Ht'. destruct Ht' as [Ht' _].
    unfold unit_labels in HT. rewrite Forall_forall in HT.
    specialize (HT t' Ht'). unfold label. cbn [snd].
    destruct t' as [tc ta [q|]]; cbn in *; assumption.
Qed.

Lemma labels_of_unit (R : list Recommendation) (T : list TrueLabel)
  (c : cell) :
  unit_labels T -> Forall unit_label (labels_of c (labelled R T)).
Proof.
  intros HT. apply Forall_forall. intros q Hq.
  unfold labels_of in Hq. apply in_map_iff in Hq.
  destruct Hq as (j & <- & Hj). apply filter_In in Hj.
  destruct Hj as [Hj _]. unfold labelled in Hj. apply in_map_iff in Hj.
  destruct Hj as (j' & <- & Hj'). cbn [snd].
  now apply (label_unit R T HT).
Qed.

Lemma labels_of_ranked_unit (R : list Recommendation) (T : list TrueLabel)
  (c : cell) :
  unit_labels T -> Forall unit_label (labels_of c (ranked R T)).
Proof.
  intros HT. apply Forall_forall. intros q Hq.
  apply (Permutation_in _ (Permutation_sym (labels_of_ranked R T c))) in Hq.
  pose proof (labels_of_unit R T c HT) as H. rewrite Forall_forall in H.
  now apply H.
Qed.

Lemma Forall_firstn {A : Type} (P : A -> Prop) (n : nat) (l : list A) :
  Forall P l -> Forall P (firstn n l).
Proof.
  intros H. revert n. induction H as [|x l Hx _ IH]; intros [|n];
    cbn [firstn]; constructor; auto.
Qed.

Lemma running_precision_unit (l : list Qc) (p : nat) :
  Forall unit_label l -> unit_label (running_precision l p).
Proof.
  intros Hl. unfold running_precision.
  pose proof (Forall_firstn unit_label (S p) l Hl) as Hf.
  destruct (total_bounds _ Hf) as [H0 H1].
  pose proof (Qc_of_nat_le _ _ (firstn_le_length (S p) l)) as Hlen.
  pose proof (Qc_of_nat_S_pos p) as Hn.
  unfold unit_label, Qcle.
  change (this 0%Qc) with 0%Q. change (this 1%Qc) with 1%Q.
  rewrite this_div. split.
  - apply Qle_shift_div_l; [assumption | lra].
  - apply Qle_shift_div_r; [assumption | lra].
Qed.

Lemma nth_unit (l : list Qc) (p : nat) :
  Forall unit_label l -> unit_label (nth p l 0%Qc).
Proof.
  intros Hl. destruct (Nat.lt_ge_cases p (length l)) as [H|H].
  - rewrite Forall_forall in Hl. apply Hl. now apply nth_In.
  - rewrite nth_overflow by assumption.
    split; [apply Qcle_refl | discriminate].
Qed.

(** The average precision of labels between 0 and 1 lies between 0 and
    their mean. *)
Lemma average_precision_bounds (l : list Qc) :
  l <> [] -> Forall unit_label l ->
  exists m p, average_precision l = Some m /\ average l = Some p
              /\ (0 <= m)%Qc /\ (m <= p)%Qc.
Proof.
  intros Hne Hl. destruct l as [|x t] eqn:El; [congruence|].
  rewrite <- El in *. unfold average_precision.
  set (term := fun p => (running_precision l p * nth p l 0)%Qc).
  assert (Hlen : length l = S (length t)) by (rewrite El; reflexivity).
  assert (Hterm : forall p, (0 <= term p)%Qc /\ (term p <= nth p l 0)%Qc).
  { intros p. destruct (running_precision_unit l p Hl) as [r0 r1].
    destruct (nth_unit l p Hl) as [n0 n1]. unfold term, Qcle in *.
    rewrite this_mult. change (this 0%Qc) with 0%Q in *.
    change (this 1%Qc) with 1%Q in *. split; nra. }
  assert (Hlo : (0 <= this (total (map term (seq 0 (length l)))))%Q).
  { generalize (seq 0 (length l)). intros s.
    induction s as [|p s IH]; [apply Qle_refl|].
    cbn [map]. rewrite total_cons.
    destruct (Hterm p) as [Hp _]. unfold Qcle in Hp.
    change (this 0%Qc) with 0%Q in Hp. lra. }
  assert (Hhi : (this (total (map term (seq 0 (length l))))
                 <= this (total l))%Q).
  { replace (total l)
      with (total (map (fun p => nth p l 0%Qc) (seq 0 (length l))))
      by (now rewrite map_nth_seq).
    apply total_le_map. intros p _. apply Hterm. }
  pose proof (Qc_of_nat_S_pos (length t)) as Hn.
  exists (total (map term (seq 0 (length l)))
          / Qc_of_nat (length (map term (seq 0 (length l)))))%Qc,
         (total l / Qc_of_nat (length l))%Qc.
  split.
  { apply average_Some. rewrite Hlen. discriminate. }
  split; [now apply average_Some|].
  rewrite length_map, length_seq, Hlen. rewrite Hlen in Hlo, Hhi.
  unfold Qcle. rewrite !this_div. change (this 0%Qc) with 0%Q. split.
  - apply Qle_shift_div_l; [assumption | lra].
  - unfold Qdiv. apply Qmult_le_compat_r; [assumption|].
    apply Qinv_le_0_compat. lra.
Qed.

Lemma Qc_of_Z_10_neq : Qc_of_Z 10 <> 0%Qc.
Proof. intros H. apply (f_equal this) in H. discriminate. Qed.

(** X6. With labels between 0 and 1 the Precision@k of every customer
    (line 85) lies between 0 and 1, and there is one value per customer. *)
Theorem precision_between_0_and_1 (customer_id sort_column : string)
  (R : list Recommendation) (T : list TrueLabel) :
  valid_names customer_id sort_column = true ->
  unit_labels T ->
  exists P,
    precision_series (recommendations_frame customer_id sort_column R)
                     (true_labels_frame customer_id T) customer_id = Ok P
    /\ map fst P = customers (labelled R T)
    /\ (forall c v, In (c, v) P ->
                    exists q, v = Some q /\ (0 <= q)%Qc /\ (q <= 1)%Qc).
Proof.
  intros V HT. exists (precision_xcid R T).
  split; [now apply precision_series_typed|]. unfold precision_xcid.
  split.
  { rewrite map_map. cbn [fst]. apply map_id. }
  intros c v Hin. apply in_map_iff in Hin. destruct Hin as (c' & E & Hc).
  injection E as <- <-.
  destruct (average_bounds (labels_of c' (labelled R T))
              (labels_of_nonempty _ _ Hc) (labels_of_unit R T c' HT))
    as (q & -> & Hq).
  now exists q.
Qed.

Lemma worked_unit_labels : unit_labels worked_T.
Proof. constructor; [split; discriminate | constructor]. Qed.

Lemma precision_between_0_and_1_witness :
  valid_names "cid" "rank" = true
  /\ unit_labels worked_T
  /\ exists P,
       precision_series (recommendations_frame "cid" "rank" worked_R)
                        (true_labels_frame "cid" worked_T) "cid" = Ok P
       /\ map fst P = customers (labelled worked_R worked_T)
       /\ (forall c v, In (c, v) P ->
                       exists q, v = Some q /\ (0 <= q)%Qc /\ (q <= 1)%Qc).
Proof.
  split; [reflexivity|]. split; [exact worked_unit_labels|].
  exact (precision_between_0_and_1 "cid" "rank" worked_R worked_T eq_refl
           worked_unit_labels).
Defined.

(** X7. For every customer, ten times the Recall@k of line 93 is the
    Precision@k of line 85 times the number of joined rows of the customer:
    both come from the same sum of labels. *)
Theorem recall_from_precision (customer_id sort_column : string)
  (R : list Recommendation) (T : list TrueLabel) :
  valid_names customer_id sort_column = true ->
  exists P Rc,
    precision_series (recommendations_frame customer_id sort_column R)
                     (true_labels_frame customer_id T) customer_id = Ok P
    /\ recall_series (recommendations_frame customer_id sort_column R)
                     (true_labels_frame customer_id T) customer_id = Ok Rc
    /\ map fst P = map fst Rc
    /\ NoDup (map fst P)
    /\ (forall c, In c (map fst P) ->
          exists p r, In (c, Some p) P /\ In (c, Some r) Rc
                      /\ (r * Qc_of_Z 10
                          = p * Qc_of_nat (rows_of c R T))%Qc).
Proof.
  intros V. exists (precision_xcid R T), (recall_xcid R T).
  split; [now apply precision_series_typed|].
  split; [now apply recall_series_typed|].
  unfold precision_xcid, recall_xcid. rewrite !map_map. cbn [fst].
  split; [reflexivity|]. rewrite map_id.
  split; [apply customers_NoDup|].
  intros c Hc. unfold rows_of.
  pose proof (labels_of_nonempty _ _ Hc) as Hne.
  destruct (labels_of c (labelled R T)) as [|x t] eqn:El; [congruence|].
  exists (total (x :: t) / Qc_of_nat (length (x :: t)))%Qc,
         (total (x :: t) / Qc_of_Z 10)%Qc.
  split.
  { apply in_map_iff. exists c. rewrite El. split; [reflexivity|assumption]. }
  split.
  { apply in_map_iff. exists c. rewrite El. split; [reflexivity|assumption]. }
  cbn [length]. field.
  split; [apply Qc_of_nat_S_neq | apply Qc_of_Z_10_neq].
Qed.

Lemma recall_from_precision_witness :
  valid_names "cid" "rank" = true
  /\ exists P Rc,
       precision_series (recommendations_frame "cid" "rank" twin_R)
                        (true_labels_frame "cid" worked_T) "cid" = Ok P
       /\ recall_series (recommendations_frame "cid" "rank" twin_R)
                        (true_labels_frame "cid" worked_T) "cid" = Ok Rc
       /\ map fst P = map fst Rc
       /\ NoDup (map fst P)
       /\ (forall c, In c (map fst P) ->
             exists p r, In (c, Some p) P /\ In (c, Some r) Rc
                         /\ (r * Qc_of_Z 10
                             = p * Qc_of_nat (rows_of c twin_R worked_T))%Qc).
Proof.
  split; [reflexivity|].
  exact (recall_from_precision "cid" "rank" twin_R worked_T eq_refl).
Defined.

(** X8. With labels between 0 and 1 the average precision of every
    customer (line 112) is at least 0 and at most the Precision@k of the
    customer (line 85), whatever the sort column orders. *)
Theorem map_at_most_precision (customer_id sort_column : string)
  (R : list Recommendation) (T : list TrueLabel) :
  valid_names customer_id sort_column = true ->
  forallb (fun r => notna (r_aid r)) R = true ->
  unit_labels T ->
  exists P M,
    precision_series (recommendations_frame customer_id sort_column R)
                     (true_labels_frame customer_id T) customer_id = Ok P
    /\ map_series (recommendations_frame customer_id sort_column R)
                  (true_labels_frame customer_id T) sort_column customer_id
       = Ok M
    /\ (forall c, In c (map fst M) <-> In c (map fst P))
    /\ (forall c, In c (map fst P) ->
          exists p m, In (c, Some p) P /\ In (c, Some m) M
                      /\ (0 <= m)%Qc /\ (m <= p)%Qc).
Proof.
  intros V Haid HT. exists (precision_xcid R T), (ap_xcid R T).
  split; [now apply precision_series_typed|].
  split; [now apply map_series_typed|].
  unfold precision_xcid, ap_xcid. rewrite !map_map. cbn [fst].
  rewrite !map_id. split; [apply customers_ranked|].
  intros c Hc.
  pose proof (labels_of_ranked R T c) as Hperm.
  assert (Hne : labels_of c (ranked R T) <> []).
  { apply labels_of_nonempty. now apply customers_ranked. }
  destruct (average_precision_bounds _ Hne (labels_of_ranked_unit R T c HT))
    as (m & p & Em & Ep & Hm0 & Hmp).
  exists p, m. split.
  { apply in_map_iff. exists c. split; [|assumption]. f_equal.
    rewrite <- Ep, (average_Some _ Hne),
      (average_Some _ (labels_of_nonempty _ _ Hc)).
    now rewrite (total_perm _ _ Hperm), (Permutation_length Hperm). }
  split; [|now split].
  apply in_map_iff. exists c. split; [now rewrite Em|].
  now apply customers_ranked.
Qed.

Lemma map_at_most_precision_witness :
  valid_names "cid" "rank" = true
  /\ forallb (fun r => notna (r_aid r)) twin_R = true
  /\ unit_labels worked_T
  /\ exists P M,
       precision_series (recommendations_frame "cid" "rank" twin_R)
                        (true_labels_frame "cid" worked_T) "cid" = Ok P
       /\ map_series (recommendations_frame "cid" "rank" twin_R)
                     (true_labels_frame "cid" worked_T) "rank" "cid" = Ok M
       /\ (forall c, In c (map fst M) <-> In c (map fst P))
       /\ (forall c, In c (map fst P) ->
             exists p m, In (c, Some p) P /\ In (c, Some m) M
                         /\ (0 <= m)%Qc /\ (m <= p)%Qc).
Proof.
  split; [reflexivity|]. split; [reflexivity|].
  split; [exact worked_unit_labels|].
  exact (map_at_most_precision "cid" "rank" twin_R worked_T eq_refl eq_refl
           worked_unit_labels).
Defined.

(** ** The shape of the summary *)

Lemma summary_columns_NoDup (k : Z) : NoDup (summary_columns k).
Proof.
  unfold summary_columns, at_k. cbn [String.concat String.append].
  repeat constructor; cbn [In]; intuition discriminate.
Qed.

(** X9. Every summary that [get_metrics] returns, on any frames, has the
    row label [name], nine pairwise distinct column labels and one row of
    nine floats, the first one a rational. *)
Theorem summary_shape (cos : list Qc -> list Qc -> Qc) (name : string)
  (recommendations true_labels : DataFrame) (articles_df : FeatureFrame)
  (sort_column : string) (k : Z) (customer_id : string) (s : Summary) :
  get_metrics cos name recommendations true_labels articles_df sort_column
              k customer_id = Ok s ->
  index s = [name]
  /\ index_names s = [EmptyString]
  /\ column_names s = [EmptyString; EmptyString]
  /\ NoDup (columns s)
  /\ length (columns s) = 9
  /\ exists row,
       data s = [row] /\ length row = 9
       /\ exists x, nth_error row 0 = Some (Rat x).
Proof.
  intros H. apply get_metrics_Ok_inv in H.
  destruct H as (cov & P & Rc & M & D & _ & ->). cbn.
  repeat split; try reflexivity.
  - apply summary_columns_NoDup.
  - eexists. repeat split. eexists. reflexivity.
Qed.

Lemma summary_shape_witness :
  get_metrics dot "engine" (recommendations_frame "cid" "rank" worked_R)
              (true_labels_frame "cid" worked_T) worked_items "rank" 5 "cid"
  = Ok worked_summary
  /\ index worked_summary = ["engine"]
  /\ index_names worked_summary = [EmptyString]
  /\ column_names worked_summary = [EmptyString; EmptyString]
  /\ NoDup (columns worked_summary)
  /\ length (columns worked_summary) = 9
  /\ exists row,
       data worked_summary = [row] /\ length row = 9
       /\ exists x, nth_error row 0 = Some (Rat x).
Proof.
  split; [exact worked_call_returns|].
  exact (summary_shape dot "engine" _ _ worked_items "rank" 5 "cid"
           worked_summary worked_call_returns).
Defined.

(** X10. The parameter [name] is the row label of the summary and nothing
    else: a call under another name raises the same exception or returns
    the same summary under the other label. *)
Theorem name_only_labels (cos : list Qc -> list Qc -> Qc)
  (name name' : string) (recommendations true_labels : DataFrame)
  (articles_df : FeatureFrame) (sort_column : string) (k : Z)
  (customer_id : string) :
  get_metrics cos name' recommendations true_labels articles_df sort_column
              k customer_id
  = match get_metrics cos name recommendations true_labels articles_df
                      sort_column k customer_id with
    | Ok s => Ok (rename name' s)
    | Raise e => Raise e
    end.
Proof.
  unfold get_metrics.
  repeat match goal with
    | |- context [bind ?m _] =>
        lazymatch m with
        | bind _ _ => fail
        | _ => destruct m; cbn [bind]; try reflexivity
        end
    end.
Qed.

(** ** The coverage *)

Lemma nunique_le (l l' : list cell) :
  (forall c, In c l -> In c l') -> (nunique l <= nunique l')%Z.
Proof.
  intros H. unfold nunique. apply Nat2Z.inj_le.
  apply NoDup_incl_length; [apply unique_NoDup|].
  intros c Hc. apply (proj1 (unique_In _ _)) in Hc.
  apply (proj1 (filter_In _ _ _)) in Hc.
  apply (proj2 (unique_In _ _)). apply (proj2 (filter_In _ _ _)).
  split; [apply H|]; tauto.
Qed.

Lemma round_half_even_between (y : Qc) (lo hi : Z) :
  (inject_Z lo <= this y)%Q -> (this y <= inject_Z hi)%Q ->
  (lo <= round_half_even y <= hi)%Z.
Proof.
  intros Hlo Hhi. destruct (round_half_even_near y) as [H1 H2].
  rewrite this_minus, this_Qc_of_Z in H1, H2.
  set (r := round_half_even y) in *. split.
  - assert (H : (inject_Z lo < inject_Z (r + 1))%Q).
    { rewrite inject_Z_plus. change (inject_Z 1) with 1%Q. lra. }
    rewrite <- Zlt_Qlt in H. lia.
  - assert (H : (inject_Z r < inject_Z (hi + 1))%Q).
    { rewrite inject_Z_plus. change (inject_Z 1) with 1%Q. lra. }
    rewrite <- Zlt_Qlt in H. lia.
Qed.

Lemma round_percentage (a b : Z) :
  (0 <= a <= b)%Z -> (0 < b)%Z ->
  (0 <= round (Qc_of_Z 100 * (Qc_of_Z a / Qc_of_Z b)) 4)%Qc
  /\ (round (Qc_of_Z 100 * (Qc_of_Z a / Qc_of_Z b)) 4 <= Qc_of_Z 100)%Qc.
Proof.
  intros [Ha Hab] Hb.
  set (x := (Qc_of_Z 100 * (Qc_of_Z a / Qc_of_Z b))%Qc).
  change (round x 4)
    with (Qc_of_Z (round_half_even (x * Qc_of_Z 10000)) / Qc_of_Z 10000)%Qc.
  assert (Hq : (0 <= inject_Z a / inject_Z b)%Q
               /\ (inject_Z a / inject_Z b <= 1)%Q).
  { assert (Hb' : (0 < inject_Z b)%Q).
    { change 0%Q with (inject_Z 0). now rewrite <- Zlt_Qlt. }
    assert (Ha' : (0 <= inject_Z a)%Q).
    { change 0%Q with (inject_Z 0). now rewrite <- Zle_Qle. }
    assert (Hab' : (inject_Z a <= inject_Z b)%Q) by now rewrite <- Zle_Qle.
    split.
    - apply Qle_shift_div_l; [assumption | lra].
    - apply Qle_shift_div_r; [assumption | lra]. }
  assert (Hy : (this (x * Qc_of_Z 10000)%Qc
                == 100 * (inject_Z a / inject_Z b) * 10000)%Q).
  { unfold x. rewrite !this_mult, this_div, !this_Qc_of_Z. reflexivity. }
  destruct (round_half_even_between (x * Qc_of_Z 10000)%Qc 0 1000000)
    as [Hr0 Hr1].
  { rewrite Hy. change (inject_Z 0) with 0%Q. lra. }
  { rewrite Hy. change (inject_Z 1000000) with 1000000%Q. lra. }
  set (r := round_half_even (x * Qc_of_Z 10000)%Qc) in *.
  rewrite Zle_Qle in Hr0, Hr1.
  change (inject_Z 0) with 0%Q in Hr0.
  change (inject_Z 1000000) with 1000000%Q in Hr1.
  unfold Qcle. rewrite this_div, !this_Qc_of_Z.
  change (this 0%Qc) with 0%Q.
  change (inject_Z 10000) with 10000%Q. change (inject_Z 100) with 100%Q.
  split.
  - apply Qle_shift_div_l; lra.
  - apply Qle_shift_div_r; lra.
Qed.

(** X11. When every recommended article is in the index of the items
    table, the coverage of a summary lies between 0 and 100. *)
Theorem coverage_between_0_and_100 (cos : list Qc -> list Qc -> Qc)
  (name : string) (R : list Recommendation) (T : list TrueLabel)
  (articles_df : FeatureFrame) (sort_column : string) (k : Z)
  (customer_id : string) (s : Summary) :
  valid_names customer_id sort_column = true ->
  Forall (fun r => In (r_aid r) (ff_index articles_df)) R ->
  get_metrics cos name (recommendations_frame customer_id sort_column R)
              (true_labels_frame customer_id T) articles_df sort_column k
              customer_id = Ok s ->
  exists row x,
    data s = [row] /\ nth_error row 0 = Some (Rat x)
    /\ (0 <= x)%Qc /\ (x <= Qc_of_Z 100)%Qc.
Proof.
  intros V Hcov H.
  destruct (get_metrics_typed cos name R T articles_df sort_column k
              customer_id V) as [M E].
  rewrite E in H. clear E.
  apply bind_Ok_inv in H. destruct H as (cov & Ecov & H).
  apply bind_Ok_inv in H. destruct H as (sims & _ & H).
  apply bind_Ok_inv in H. destruct H as (pairs & _ & H).
  apply bind_Ok_inv in H. destruct H as (D & _ & H).
  injection H as <-. cbn [data summary_row nth_error].
  do 2 eexists. split; [reflexivity|]. split; [reflexivity|].
  unfold truediv in Ecov.
  destruct (Z.eqb_spec (nunique (ff_index articles_df)) 0) as [|Hb];
    [discriminate|].
  injection Ecov as <-.
  assert (Ha : (0 <= nunique (map r_aid R))%Z)
    by (unfold nunique; lia).
  assert (Hab : (nunique (map r_aid R)
                 <= nunique (ff_index articles_df))%Z).
  { apply nunique_le. intros c Hc. apply in_map_iff in Hc.
    destruct Hc as (r & <- & Hr). rewrite Forall_forall in Hcov.
    now apply Hcov. }
  apply round_percentage; lia.
Qed.

Lemma coverage_between_0_and_100_witness :
  valid_names "cid" "rank" = true
  /\ Forall (fun r => In (r_aid r) (ff_index worked_items)) worked_R
  /\ get_metrics dot "engine" (recommendations_frame "cid" "rank" worked_R)
                 (true_labels_frame "cid" worked_T) worked_items "rank" 5
                 "cid" = Ok worked_summary
  /\ exists row x,
       data worked_summary = [row] /\ nth_error row 0 = Some (Rat x)
       /\ (0 <= x)%Qc /\ (x <= Qc_of_Z 100)%Qc.
Proof.
  assert (H : Forall (fun r => In (r_aid r) (ff_index worked_items))
                     worked_R).
  { repeat constructor; simpl; tauto. }
  split; [reflexivity|]. split; [exact H|].
  split; [exact worked_call_returns|].
  exact (coverage_between_0_and_100 dot "engine" worked_R worked_T
           worked_items "rank" 5 "cid" worked_summary eq_refl H
           worked_call_returns).
Defined.

(** ** One customer *)

Lemma valid_values_length (l : list (option Qc)) :
  length (valid_values l) <= length l.
Proof.
  unfold valid_values.
  induction l as [|[q|] l IH]; cbn [flat_map app length]; lia.
Qed.

(** The deviation (with [ddof=1]) of at most one value is NaN. *)
Lemma std_single (s : Series) : length s <= 1 -> std (values s) = FNaN.
Proof.
  intros H. unfold std, var, values.
  pose proof (valid_values_length (map snd s)) as Hl.
  rewrite length_map in Hl.
  destruct (Nat.leb_spec (length (valid_values (map snd s))) 1);
    [reflexivity | lia].
Qed.

Lemma map_xcid_customers (customer_id sort_column : string)
  (L : list (Recommendation * Qc)) (M : Series) :
  valid_names customer_id sort_column = true ->
  tools.map_xcid (intra_frame customer_id sort_column L) customer_id = Ok M ->
  map fst M = customers L.
Proof.
  intros V.
  assert (E : tools.map_xcid (intra_frame customer_id sort_column L)
                             customer_id
              = Ok (map (fun k => (k, mean (map number_of
                                              (group_values k (keys_of L)
                                                 (intra_column L)))))
                        (group_keys (keys_of L)))).
  { unfold tools.map_xcid, groupby_col, intra_frame.
    rewrite labelled_frame_keys. cbn [bind].
    use_valid_names V.
    unfold labelled_frame, getitem. cbn [app]. frame.
    unfold agg, groupby. cbn [gb_groups].
    apply traverse_map_Ok.
    intros c _. cbn [fst snd]. rewrite numeric_Ok; [reflexivity|].
    apply group_values_forallb, is_numeric_intra_column. }
  rewrite E. intros H. injection H as <-.
  rewrite map_map. cbn [fst]. rewrite map_id. reflexivity.
Qed.

Lemma take_In (idx : list nat) (col : list cell) (k : cell) :
  In k (take idx col) -> k <> NaN -> In k col.
Proof.
  unfold take. intros H Hk. apply in_map_iff in H.
  destruct H as (i & <- & _).
  destruct (nth_in_or_default i col NaN) as [H|H]; [assumption|].
  congruence.
Qed.

(** The diversity series of lines 139-142 has one value per customer of
    the table of pairs at most. *)
Lemma diversity_x_cid_keys (customer_id sort_column : string)
  (ks a b a' b' c : list cell) (D : Series) :
  valid_names customer_id sort_column = true ->
  forallb is_numeric c = true ->
  diversity_x_cid [(customer_id, ks); ("aid_01", a); ("aid_02", b)]
                  [("aid_01", a'); ("aid_02", b'); ("score", c)]
                  customer_id
  = Ok D ->
  NoDup (map fst D) /\ (forall k, In k (map fst D) -> In k ks).
Proof.
  intros V Hc. use_valid_names V.
  unfold diversity_x_cid, merge. cbn [merge_keys]. unfold getitem, mem.
  frame. unfold groupby_col, getitem. cbn [app]. frame.
  unfold agg, groupby. cbn [gb_groups].
  set (keys := take _ ks). set (vals := take_opt _ c).
  rewrite (traverse_map_Ok _ _
             (fun k => (k, mean (map number_of
                                     (group_values k keys vals))))).
  - cbn [bind]. intros H. injection H as <-.
    rewrite !map_map. cbn [fst]. rewrite map_id. split.
    + apply group_keys_NoDup.
    + intros k Hk. apply group_keys_In in Hk. destruct Hk as [Hk Hna].
      now apply (take_In _ _ _ Hk).
  - intros k _. cbn [fst snd]. rewrite numeric_Ok; [reflexivity|].
    apply group_values_forallb. now apply take_opt_numeric.
Qed.

Lemma explode_fst {A : Type} (col : list (cell * list A)) (k : cell) :
  In k (map fst (explode col)) -> In k (map fst col).
Proof.
  intros H. apply in_map_iff in H. destruct H as ([k' o] & <- & H).
  unfold explode in H. apply in_flat_map in H. destruct H as (g & Hg & H).
  apply in_map_iff. exists g. split; [|assumption].
  destruct (snd g) as [|x xs].
  - destruct H as [H|[]]. now injection H.
  - apply in_map_iff in H. destruct H as (y & H & _). now injection H.
Qed.

Lemma customers_ranked_length (R : list Recommendation)
  (T : list TrueLabel) :
  length (customers (ranked R T)) = length (customers (labelled R T)).
Proof.
  apply Permutation_length, NoDup_Permutation;
    [apply customers_NoDup | apply customers_NoDup | apply customers_ranked].
Qed.

(** X12. With a single customer the four deviations of the summary are
    NaN: each is the deviation, with [ddof=1], of one value at most. *)
Theorem single_customer_no_deviation (cos : list Qc -> list Qc -> Qc)
  (name : string) (R : list Recommendation) (T : list TrueLabel)
  (articles_df : FeatureFrame) (sort_column : string) (k : Z)
  (customer_id : string) (c : cell) (s : Summary) :
  valid_names customer_id sort_column = true ->
  customers (labelled R T) = [c] ->
  get_metrics cos name (recommendations_frame customer_id sort_column R)
              (true_labels_frame customer_id T) articles_df sort_column k
              customer_id = Ok s ->
  exists row,
    data s = [row]
    /\ nth_error row 2 = Some FNaN /\ nth_error row 4 = Some FNaN
    /\ nth_error row 6 = Some FNaN /\ nth_error row 8 = Some FNaN.
Proof.
  intros V Hone H. apply get_metrics_Ok_inv in H.
  destruct H as (cov & P & Rc & M & D & Hrun & ->).
  destruct (run_typed _ _ _ _ _ _ _ _ _ _ _ V Hrun) as (-> & -> & _).
  destruct Hrun as [mf ff itf sm pr H1 H2 H3 H4 H5 H6 H7 H8 H9 H10].
  rewrite (merged_typed _ _ _ _ V) in H1. injection H1 as <-.
  rewrite (fill_interested_typed _ _ _ V) in H3. injection H3 as <-.
  fold (labelled R T) in *.
  rewrite (intra_map_typed _ _ _ V) in H6. injection H6 as <-.
  fold (ranked R T) in *.
  pose proof (map_xcid_customers _ _ _ _ V H7) as HM.
  destruct (sims_df_shape _ _ _ _ H8) as (a' & b' & sc & -> & Hsc).
  rewrite (pairs_frame_typed _ _ _ V) in H9.
  apply bind_Ok_inv in H9. destruct H9 as (z & _ & H9).
  apply bind_Ok_inv in H9. destruct H9 as (ab & _ & H9).
  injection H9 as <-.
  destruct (diversity_x_cid_keys _ _ _ _ _ _ _ _ _ V Hsc H10) as [HD1 HD2].
  assert (HlenM : length M <= 1).
  { rewrite <- (length_map fst), HM, customers_ranked_length, Hone.
    reflexivity. }
  assert (HlenD : length D <= 1).
  { rewrite <- (length_map fst).
    replace 1 with (length (customers (labelled R T)))
      by (rewrite Hone; reflexivity).
    apply NoDup_incl_length; [assumption|].
    intros x Hx. apply customers_ranked. apply HD2 in Hx.
    unfold exploded_pairs in Hx. apply explode_fst in Hx.
    rewrite map_map in Hx. cbn [fst] in Hx. now rewrite map_id in Hx. }
  eexists. split; [reflexivity|]. cbn [summary_row nth_error].
  rewrite !std_single; auto.
  - unfold recall_xcid. rewrite length_map, Hone. reflexivity.
  - unfold precision_xcid. rewrite length_map, Hone. reflexivity.
Qed.

Lemma single_customer_no_deviation_witness :
  valid_names "cid" "rank" = true
  /\ customers (labelled worked_R worked_T) = [num 1]
  /\ get_metrics dot "engine" (recommendations_frame "cid" "rank" worked_R)
                 (true_labels_frame "cid" worked_T) worked_items "rank" 5
                 "cid" = Ok worked_summary
  /\ exists row,
       data worked_summary = [row]
       /\ nth_error row 2 = Some FNaN /\ nth_error row 4 = Some FNaN
       /\ nth_error row 6 = Some FNaN /\ nth_error row 8 = Some FNaN.
Proof.
  split; [reflexivity|]. split; [reflexivity|].
  split; [exact worked_call_returns|].
  exact (single_customer_no_deviation dot "engine" worked_R worked_T
           worked_items "rank" 5 "cid" (num 1) worked_summary eq_refl
           eq_refl worked_call_returns).
Defined.

(** ** The rows of the left join *)

Lemma left_join_length (R : list Recommendation) (T : list TrueLabel) :
  length R <= length (left_join R T)
  /\ ((forall r, In r R -> length (filter (matches r) T) <= 1) ->
      length (left_join R T) = length R)
  /\ (forall r, In r R -> 2 <= length (filter (matches r) T) ->
                length R < length (left_join R T)).
Proof.
  unfold left_join. induction R as [|r R (IH1 & IH2 & IH3)].
  - split; [reflexivity|]. split; [reflexivity|]. intros r [].
  - cbn [flat_map]. rewrite length_app. cbn [length].
    remember (filter (matches r) T) as ms eqn:Ems.
    match goal with
    | |- context [length ?p + _] => set (piece := p) in *
    end.
    assert (Hp : 1 <= length piece
                 /\ (length ms <= 1 -> length piece = 1)
                 /\ length ms <= length piece).
    { unfold piece. destruct ms as [|t ms']; cbn [length map];
        rewrite ?length_map; (split; [|split]); lia. }
    destruct Hp as (Hp1 & Hp2 & Hp3).
    split; [lia|]. split.
    + intros H.
      rewrite Hp2 by (rewrite Ems; apply (H r); now left).
      rewrite IH2; [reflexivity|]. intros r' Hr'. apply H. now right.
    + intros r' [<-|Hr'] Hdup.
      * rewrite <- Ems in Hdup. lia.
      * specialize (IH3 r' Hr' Hdup). lia.
Qed.

(** X13. The left join of lines 72-77 keeps every recommendation: the
    joined frame has as many rows as [recommendations] when no
    recommendation matches two labels, and more rows as soon as one does. *)
Theorem merged_row_count (customer_id sort_column : string)
  (R : list Recommendation) (T : list TrueLabel) :
  valid_names customer_id sort_column = true ->
  exists recs,
    merged (recommendations_frame customer_id sort_column R)
           (true_labels_frame customer_id T) customer_id = Ok recs
    /\ length R <= nrows recs
    /\ ((forall r, In r R -> length (filter (matches r) T) <= 1) ->
        nrows recs = length R)
    /\ (forall r, In r R -> 2 <= length (filter (matches r) T) ->
                  length R < nrows recs).
Proof.
  intros V. eexists. split; [now apply merged_typed|].
  unfold joined_frame. cbn [nrows]. rewrite length_map.
  apply left_join_length.
Qed.

Lemma merged_row_count_witness :
  valid_names "cid" "rank" = true
  /\ exists recs,
       merged (recommendations_frame "cid" "rank" worked_R)
              (true_labels_frame "cid" (worked_T ++ worked_T)) "cid"
       = Ok recs
       /\ length worked_R <= nrows recs
       /\ ((forall r, In r worked_R ->
                      length (filter (matches r) (worked_T ++ worked_T))
                      <= 1) ->
           nrows recs = length worked_R)
       /\ (forall r, In r worked_R ->
                     2 <= length (filter (matches r) (worked_T ++ worked_T))
                     -> length worked_R < nrows recs).
Proof.
  split; [reflexivity|].
  exact (merged_row_count "cid" "rank" worked_R (worked_T ++ worked_T)
           eq_refl).
Defined.

(** ** The columns the call reads *)

(** X14. When a key column of the merge, [customer_id] or [article_id],
    is missing in one of the two tables, the call raises the [KeyError] of a
    missing key column, on any frames. *)
Theorem missing_key_column (cos : list Qc -> list Qc -> Qc) (name : string)
  (recommendations true_labels : DataFrame) (articles_df : FeatureFrame)
  (sort_column : string) (k : Z) (customer_id : string) :
  getcol customer_id recommendations = None
  \/ getcol "article_id" recommendations = None
  \/ getcol customer_id true_labels = None
  \/ getcol "article_id" true_labels = None ->
  exists key,
    get_metrics cos name recommendations true_labels articles_df
                sort_column k customer_id = Raise (KeyError key)
    /\ (key = customer_id \/ key = "article_id")
    /\ (getcol key recommendations = None
        \/ getcol key true_labels = None).
Proof.
  intros H. unfold get_metrics, merged, merge. cbn [merge_keys].
  unfold getitem.
  destruct (getcol customer_id true_labels) eqn:E1; cbn [bind];
    [|exists customer_id; auto].
  destruct (getcol customer_id recommendations) eqn:E2; cbn [bind];
    [|exists customer_id; auto].
  destruct (getcol "article_id" true_labels) eqn:E3; cbn [bind];
    [|exists "article_id"; auto].
  destruct (getcol "article_id" recommendations) eqn:E4; cbn [bind];
    [|exists "article_id"; auto].
  destruct H as [H|[H|[H|H]]]; discriminate.
Qed.

Lemma missing_key_column_witness :
  (getcol "cid" [("article_id", [Str "A01"])] = None
   \/ getcol "article_id" [("article_id", [Str "A01"])] = None
   \/ getcol "cid" (true_labels_frame "cid" worked_T) = None
   \/ getcol "article_id" (true_labels_frame "cid" worked_T) = None)
  /\ exists key,
       get_metrics dot "engine" [("article_id", [Str "A01"])]
                   (true_labels_frame "cid" worked_T) worked_items "rank" 5
                   "cid" = Raise (KeyError key)
       /\ (key = "cid" \/ key = "article_id")
       /\ (getcol key [("article_id", [Str "A01"])] = None
           \/ getcol key (true_labels_frame "cid" worked_T) = None).
Proof.
  assert (H : getcol "cid" [("article_id", [Str "A01"])] = None
              \/ getcol "article_id" [("article_id", [Str "A01"])] = None
              \/ getcol "cid" (true_labels_frame "cid" worked_T) = None
              \/ getcol "article_id" (true_labels_frame "cid" worked_T)
                 = None) by (left; reflexivity).
  split; [exact H|].
  exact (missing_key_column dot "engine" [("article_id", [Str "A01"])]
           (true_labels_frame "cid" worked_T) worked_items "rank" 5 "cid"
           H).
Defined.



(** ** The sort column and the precision *)

Lemma left_join_with_sort (f : Recommendation -> cell)
  (R : list Recommendation) (T : list TrueLabel) :
  left_join (map (with_sort f) R) T
  = map (fun j => (with_sort f (fst j), snd j)) (left_join R T).
Proof.
  unfold left_join. rewrite !flat_map_concat_map, concat_map, !map_map.
  f_equal. apply map_ext. intros r.
  replace (filter (matches (with_sort f r)) T) with (filter (matches r) T)
    by (apply filter_ext; reflexivity).
  destruct (filter (matches r) T) as [|t ms]; [reflexivity|].
  rewrite map_map. reflexivity.
Qed.

Lemma labelled_with_sort (f : Recommendation -> cell)
  (R : list Recommendation) (T : list TrueLabel) :
  labelled (map (with_sort f) R) T
  = map (fun j => (with_sort f (fst j), snd j)) (labelled R T).
Proof.
  unfold labelled. rewrite left_join_with_sort, !map_map. reflexivity.
Qed.

Lemma customers_with_sort (f : Recommendation -> cell)
  (L : list (Recommendation * Qc)) :
  customers (map (fun j => (with_sort f (fst j), snd j)) L) = customers L.
Proof. unfold customers. rewrite map_map. reflexivity. Qed.

Lemma labels_of_with_sort (f : Recommendation -> cell) (c : cell)
  (L : list (Recommendation * Qc)) :
  labels_of c (map (fun j => (with_sort f (fst j), snd j)) L)
  = labels_of c L.
Proof.
  unfold labels_of. induction L as [|j L IH]; [reflexivity|].
  cbn [map filter fst snd with_sort r_cid].
  destruct (cell_eqb (r_cid (fst j)) c); cbn [map snd]; now rewrite IH.
Qed.

(** X16. The precision and the recall of lines 85 and 93 do not read the
    sort column: other sort values give the same two series. *)
Theorem precision_recall_ignore_sort (customer_id sort_column : string)
  (R : list Recommendation) (T : list TrueLabel)
  (f : Recommendation -> cell) :
  valid_names customer_id sort_column = true ->
  precision_series
    (recommendations_frame customer_id sort_column (map (with_sort f) R))
    (true_labels_frame customer_id T) customer_id
  = precision_series (recommendations_frame customer_id sort_column R)
                     (true_labels_frame customer_id T) customer_id
  /\ recall_series
       (recommendations_frame customer_id sort_column (map (with_sort f) R))
       (true_labels_frame customer_id T) customer_id
     = recall_series (recommendations_frame customer_id sort_column R)
                     (true_labels_frame customer_id T) customer_id.
Proof.
  intros V. rewrite !(precision_series_typed _ _ _ _ V).
  rewrite !(recall_series_typed _ _ _ _ V).
  unfold precision_xcid, recall_xcid.
  rewrite labelled_with_sort, customers_with_sort.
  split; f_equal; apply map_ext; intros c;
    now rewrite labels_of_with_sort.
Qed.

Lemma precision_recall_ignore_sort_witness :
  valid_names "cid" "rank" = true
  /\ precision_series
       (recommendations_frame "cid" "rank"
          (map (with_sort (fun _ => num 0)) worked_R))
       (true_labels_frame "cid" worked_T) "cid"
     = precision_series (recommendations_frame "cid" "rank" worked_R)
                        (true_labels_frame "cid" worked_T) "cid"
  /\ recall_series
       (recommendations_frame "cid" "rank"
          (map (with_sort (fun _ => num 0)) worked_R))
       (true_labels_frame "cid" worked_T) "cid"
     = recall_series (recommendations_frame "cid" "rank" worked_R)
                     (true_labels_frame "cid" worked_T) "cid".
Proof.
  split; [reflexivity|].
  exact (precision_recall_ignore_sort "cid" "rank" worked_R worked_T
           (fun _ => num 0) eq_refl).
Defined.

(** ** The image files *)

Lemma string_length_append (a b : string) :
  String.length (String.append a b) = String.length a + String.length b.
Proof. induction a as [|c a IH]; simpl; [reflexivity | now rewrite IH]. Qed.

Lemma append_same_length (a b x y : string) :
  String.length a = String.length b ->
  String.append a x = String.append b y -> a = b /\ x = y.
Proof.
  revert b. induction a as [|c a IH]; intros [|c' b] Hlen H;
    try discriminate; simpl in *.
  - now split.
  - injection Hlen as Hlen. injection H as -> H.
    destruct (IH b Hlen H) as [-> ->]. now split.
Qed.

Lemma append_same_prefix (p x y : string) :
  String.append p x = String.append p y -> x = y.
Proof. intros H. now apply (append_same_length p p x y eq_refl). Qed.

Lemma image_path_append (article_id : string) :
  image_path article_id
  = String.append "./recursos/datos/images/"
      (String.append (slice_to 3 article_id)
         (String.append "/" (String.append article_id ".jpg"))).
Proof. reflexivity. Qed.

Lemma image_path_injective (a b : string) :
  image_path a = image_path b -> a = b.
Proof.
  rewrite !image_path_append. intros H. apply append_same_prefix in H.
  assert (Hlen : String.length a = String.length b).
  { apply (f_equal String.length) in H.
    rewrite !string_length_append, !slice_to_length in H.
    cbn [String.length] in H. lia. }
  apply append_same_length in H;
    [|rewrite !slice_to_length; now rewrite Hlen].
  destruct H as [_ H]. apply append_same_prefix in H.
  now apply append_same_length in H.
Qed.

(** X17. Two calls of [show_article] on different identifiers open
    different files: the path of line 23 is injective in the identifier. *)
Theorem distinct_articles_distinct_files `{PIL.Imaging} (a b : string)
  (size_ : option (Z * Z)) :
  a <> b ->
  let asked := match size_ with Some sz => sz | None => (200, 200)%Z end in
  show_article a size_ = (im <- PIL.open (image_path a) ;; PIL.resize im asked)
  /\ show_article b size_
     = (im <- PIL.open (image_path b) ;; PIL.resize im asked)
  /\ image_path a <> image_path b.
Proof.
  intros Hab asked.
  assert (E : forall x, show_article x size_
                        = (im <- PIL.open (image_path x) ;;
                           PIL.resize im asked)).
  { intros x. unfold show_article, image_path, asked,
      show_article_default_size.
    destruct (PIL.open _) as [im|e]; cbn [bind]; [|reflexivity].
    destruct size_; destruct (PIL.resize im _); reflexivity. }
  split; [apply E|]. split; [apply E|].
  intros H0. apply Hab. now apply image_path_injective.
Qed.

Lemma distinct_articles_distinct_files_witness :
  "0108775015" <> "0108775044"
  /\ @show_article disk "0108775015" None
     = (im <- @PIL.open disk (image_path "0108775015") ;;
        @PIL.resize disk im (200, 200)%Z)
  /\ @show_article disk "0108775044" None
     = (im <- @PIL.open disk (image_path "0108775044") ;;
        @PIL.resize disk im (200, 200)%Z)
  /\ image_path "0108775015" <> image_path "0108775044".
Proof.
  assert (H : "0108775015" <> "0108775044") by discriminate.
  split; [exact H|].
  exact (@distinct_articles_distinct_files disk "0108775015" "0108775044"
           None H).
Defined.

(** ** The configuration file *)

Lemma head_of_append (d base : string) :
  os_path.head_of base = EmptyString ->
  os_path.head_of (String.append d (String os_path.sep base))
  = String.append d "/".
Proof.
  intros Hb. induction d as [|c d IH].
  - cbn [String.append os_path.head_of]. rewrite Hb. reflexivity.
  - cbn [String.append os_path.head_of]. rewrite IH.
    destruct d; reflexivity.
Qed.

Lemma all_sep_append (d : string) :
  os_path.all_sep (String.append d "/") = os_path.all_sep d.
Proof.
  induction d as [|c d IH]; [reflexivity|].
  cbn [String.append os_path.all_sep]. now rewrite IH.
Qed.

Lemma rstrip_append (d : string) :
  os_path.rstrip (String.append d "/") = os_path.rstrip d.
Proof.
  induction d as [|c d IH]; [reflexivity|].
  cbn [String.append os_path.rstrip]. now rewrite IH.
Qed.

Lemma rstrip_all_sep (d : string) :
  os_path.all_sep d = true -> os_path.rstrip d = EmptyString.
Proof.
  induction d as [|c d IH]; [reflexivity|].
  cbn [os_path.all_sep os_path.rstrip]. intros H.
  apply andb_prop in H. destruct H as [Hc Hd].
  rewrite (IH Hd), Hc. reflexivity.
Qed.

(** [dirname] of a file [base] in a directory [d] that is written without
    a trailing separator: [d], or the root when [d] is empty. *)
Lemma dirname_of_file (d base : string) :
  os_path.rstrip d = d -> os_path.head_of base = EmptyString ->
  os_path.dirname (String.append d (String os_path.sep base))
  = if String.eqb d EmptyString then "/" else d.
Proof.
  intros Hd Hb. unfold os_path.dirname. rewrite (head_of_append _ _ Hb).
  rewrite all_sep_append, rstrip_append, Hd.
  destruct d as [|c d]; [reflexivity|].
  cbn [String.append String.eqb negb andb].
  destruct (os_path.all_sep (String c d)) eqn:E; [|reflexivity].
  apply rstrip_all_sep in E. congruence.
Qed.

(** X18. [read_config_data] reads the file [configuration.yml] of the
    directory of the module: when the real path of the module is the file
    [base] in the directory [d], the file opened is
    [d/configuration.yml], and [//configuration.yml] when the module lies
    in the root. *)
Theorem config_file_beside_module `{host.Host} (d base : string) :
  os_path.rstrip d = d ->
  os_path.head_of base = EmptyString ->
  host.realpath host.__file__ = String.append d (String.append "/" base) ->
  read_config_data
  = (conf_file <- host.open
                    (String.append
                       (if String.eqb d EmptyString then "/" else d)
                       "/configuration.yml") ;;
     configuration <- host.read conf_file ;;
     host.safe_load configuration).
Proof.
  intros Hd Hb Hpath. unfold read_config_data. rewrite Hpath.
  change (String.append "/" base) with (String os_path.sep base).
  rewrite (dirname_of_file _ _ Hd Hb). cbn [String.concat].
  reflexivity.
Qed.

Lemma config_file_beside_module_witness :
  os_path.rstrip "/srv/app" = "/srv/app"
  /\ os_path.head_of "tools.py" = EmptyString
  /\ @host.realpath app_host (@host.__file__ app_host)
     = String.append "/srv/app" (String.append "/" "tools.py")
  /\ @read_config_data app_host
     = (conf_file <- @host.open app_host
                       (String.append
                          (if String.eqb "/srv/app" EmptyString then "/"
                           else "/srv/app")
                          "/configuration.yml") ;;
        configuration <- @host.read app_host conf_file ;;
        @host.safe_load app_host configuration).
Proof.
  split; [reflexivity|]. split; [reflexivity|]. split; [reflexivity|].
  exact (@config_file_beside_module app_host "/srv/app" "tools.py" eq_refl
           eq_refl eq_refl).
Defined.

(** ** The diversity when the items table follows the recommendations *)




































(** ** The order of the rows of the recommendations *)

Lemma labelled_perm (R R' : list Recommendation) (T : list TrueLabel) :
  Permutation R R' -> Permutation (labelled R T) (labelled R' T).
Proof.
  intros H. unfold labelled, left_join.
  apply Permutation_map. now apply Permutation_flat_map.
Qed.

Lemma labels_of_perm (c : cell) (L L' : list (Recommendation * Qc)) :
  Permutation L L' -> Permutation (labels_of c L) (labels_of c L').
Proof.
  intros H. unfold labels_of. now apply Permutation_map, filter_perm.
Qed.

Lemma customers_perm (R R' : list Recommendation) (T : list TrueLabel)
  (c : cell) :
  Permutation R R' ->
  In c (customers (labelled R T)) -> In c (customers (labelled R' T)).
Proof.
  intros H Hc. apply customers_labelled in Hc.
  destruct Hc as (Hna & r & Hr & E). apply customers_labelled.
  split; [assumption|]. exists r. split; [|assumption].
  now apply (Permutation_in _ H).
Qed.

Lemma average_perm (l l' : list Qc) :
  Permutation l l' -> average l = average l'.
Proof.
  intros H. pose proof (Permutation_length H) as Hlen.
  destruct l as [|x l], l' as [|x' l']; try discriminate; [reflexivity|].
  rewrite !average_Some by discriminate.
  now rewrite (total_perm _ _ H), Hlen.
Qed.

(** X20. The precision and the recall of a customer do not depend on the
    order of the rows of [recommendations]: the series of lines 85 and 93
    of two tables with the same rows hold the same values for the same
    customers. *)
Theorem precision_recall_row_order (customer_id sort_column : string)
  (R R' : list Recommendation) (T : list TrueLabel) :
  valid_names customer_id sort_column = true ->
  Permutation R R' ->
  exists P P' Rc Rc',
    precision_series (recommendations_frame customer_id sort_column R)
                     (true_labels_frame customer_id T) customer_id = Ok P
    /\ precision_series (recommendations_frame customer_id sort_column R')
                        (true_labels_frame customer_id T) customer_id
       = Ok P'
    /\ recall_series (recommendations_frame customer_id sort_column R)
                     (true_labels_frame customer_id T) customer_id = Ok Rc
    /\ recall_series (recommendations_frame customer_id sort_column R')
                     (true_labels_frame customer_id T) customer_id = Ok Rc'
    /\ (forall c v, In (c, v) P <-> In (c, v) P')
    /\ (forall c v, In (c, v) Rc <-> In (c, v) Rc').
Proof.
  intros V H.
  exists (precision_xcid R T), (precision_xcid R' T),
         (recall_xcid R T), (recall_xcid R' T).
  rewrite !(precision_series_typed _ _ _ _ V).
  rewrite !(recall_series_typed _ _ _ _ V).
  do 4 (split; [reflexivity|]).
  assert (Hone : forall R1 R2, Permutation R1 R2 ->
            (forall c v, In (c, v) (precision_xcid R1 T) ->
                         In (c, v) (precision_xcid R2 T))
            /\ (forall c v, In (c, v) (recall_xcid R1 T) ->
                            In (c, v) (recall_xcid R2 T))).
  { intros R1 R2 H12.
    pose proof (labelled_perm R1 R2 T H12) as HL.
    unfold precision_xcid, recall_xcid.
    split; intros c v Hin; apply in_map_iff in Hin;
      destruct Hin as (c' & E & Hc); injection E as -> <-;
      apply in_map_iff; exists c;
      (split; [|now apply (customers_perm R1 R2 T c H12)]); f_equal.
    - symmetry. now apply average_perm, labels_of_perm.
    - do 2 f_equal. symmetry. now apply total_perm, labels_of_perm. }
  destruct (Hone R R' H) as [HP HR].
  destruct (Hone R' R (Permutation_sym H)) as [HP' HR'].
  split; intros c v; split; auto.
Qed.

Lemma precision_recall_row_order_witness :
  valid_names "cid" "rank" = true
  /\ Permutation worked_R (rev worked_R)
  /\ exists P P' Rc Rc',
       precision_series (recommendations_frame "cid" "rank" worked_R)
                        (true_labels_frame "cid" worked_T) "cid" = Ok P
       /\ precision_series
            (recommendations_frame "cid" "rank" (rev worked_R))
            (true_labels_frame "cid" worked_T) "cid" = Ok P'
       /\ recall_series (recommendations_frame "cid" "rank" worked_R)
                        (true_labels_frame "cid" worked_T) "cid" = Ok Rc
       /\ recall_series
            (recommendations_frame "cid" "rank" (rev worked_R))
            (true_labels_frame "cid" worked_T) "cid" = Ok Rc'
       /\ (forall c v, In (c, v) P <-> In (c, v) P')
       /\ (forall c v, In (c, v) Rc <-> In (c, v) Rc').
Proof.
  split; [reflexivity|]. split; [apply Permutation_rev|].
  exact (precision_recall_row_order "cid" "rank" worked_R (rev worked_R)
           worked_T eq_refl (Permutation_rev worked_R)).
Defined.
